(** * SatView: the pass-notification pipeline of [app.py]

  A shallow embedding of the request handler [home] and of the helpers
  it calls ([get_next_pass_times], [estimate_data_availability],
  [schedule_notification], [display_grid_on_map]), together with the
  parts of Python's [datetime] and [str] they rely on.

  Layout:
  - [PyStr]      : [str.strip], [str.upper], the [in] operator;
  - [PyDatetime] : naive/aware datetimes, the proleptic Gregorian
                   calendar, [strftime]/[strptime] for the one format
                   the program uses, [datetime +/- timedelta];
  - [Scheduler]  : the job store behind [scheduler.add_job] and its
                   dispatch step;
  - [App]        : the functions of [app.py];
  - the properties, one section per component. *)

From Stdlib Require Import ZArith List String Ascii Bool Lia.
From Stdlib Require Import Uint63 PrimFloat.
Import ListNotations.

Local Open Scope string_scope.
Local Open Scope list_scope.
Local Open Scope Z_scope.

(** Division and remainder by literals are handed to [lia] as their
  Euclidean equations. *)
Ltac Zify.zify_post_hook ::= Z.to_euclidean_division_equations.

(* ================================================================= *)
(** ** Exceptions *)

(** The exception classes that the modelled code can raise.  Only the
  class is kept; [home] turns any of them into the error page. *)
Inductive exn : Type :=
| ValueError      (* float(), int(), strptime() on a bad string *)
| OverflowError   (* timedelta / datetime arithmetic out of range *)
| TypeError       (* comparing a naive with an aware datetime *)
| KeyError.       (* request.form[...] on a missing field *)

Inductive result (A : Type) : Type :=
| Ok (a : A)
| Raise (e : exn).
Arguments Ok {A} a.
Arguments Raise {A} e.

Definition result_bind {A B} (r : result A) (k : A -> result B) : result B :=
match r with
| Ok a => k a
| Raise e => Raise e
end.

(* ================================================================= *)
(** ** Python's [datetime], as far as [app.py] uses it *)

Module PyDatetime.

(** [tzinfo] is either absent (a naive datetime) or [timezone.utc]. *)
Inductive tz : Type := UTC.

Record datetime : Type := mk_datetime {
  year : Z; month : Z; day : Z;
  hour : Z; minute : Z; second : Z;
  microsecond : Z;
  tzinfo : option tz
}.

Definition MINYEAR : Z := 1.
Definition MAXYEAR : Z := 9999.
Definition MAXORDINAL : Z := 3652059.   (* date(9999,12,31).toordinal() *)

Definition is_leap (y : Z) : bool :=
  (y mod 4 =? 0) && (negb (y mod 100 =? 0) || (y mod 400 =? 0)).

Definition days_before_year (y : Z) : Z :=
  let y' := y - 1 in
  y' * 365 + y' / 4 - y' / 100 + y' / 400.

(** [_DAYS_IN_MONTH] and [_DAYS_BEFORE_MONTH]; index 0 is the
    placeholder [-1] of the Python tables. *)
Definition DAYS_IN_MONTH (m : Z) : Z :=
  match m with
  | 1 => 31 | 2 => 28 | 3 => 31 | 4 => 30 | 5 => 31 | 6 => 30
  | 7 => 31 | 8 => 31 | 9 => 30 | 10 => 31 | 11 => 30 | 12 => 31
  | _ => -1
  end.

Definition DAYS_BEFORE_MONTH (m : Z) : Z :=
  match m with
  | 1 => 0 | 2 => 31 | 3 => 59 | 4 => 90 | 5 => 120 | 6 => 151
  | 7 => 181 | 8 => 212 | 9 => 243 | 10 => 273 | 11 => 304 | 12 => 334
  | _ => -1
  end.

Definition days_in_month (y m : Z) : Z :=
  if (m =? 2) && is_leap y then 29 else DAYS_IN_MONTH m.

Definition days_before_month (y m : Z) : Z :=
  DAYS_BEFORE_MONTH m + (if (2 <? m) && is_leap y then 1 else 0).

Definition ymd2ord (y m d : Z) : Z :=
  days_before_year y + days_before_month y m + d.

Definition DI400Y : Z := 146097.
Definition DI100Y : Z := 36524.
Definition DI4Y : Z := 1461.

(** [_ord2ymd]: ordinal (1 = 0001-01-01) to (year, month, day). *)
Definition ord2ymd (n : Z) : Z * Z * Z :=
  let n := n - 1 in
  let n400 := n / DI400Y in
  let n := n mod DI400Y in
  let y := n400 * 400 + 1 in
  let n100 := n / DI100Y in
  let n := n mod DI100Y in
  let n4 := n / DI4Y in
  let n := n mod DI4Y in
  let n1 := n / 365 in
  let n := n mod 365 in
  let y := y + n100 * 100 + n4 * 4 + n1 in
  if (n1 =? 4) || (n100 =? 4) then (y - 1, 12, 31)
  else
    let leapyear := (n1 =? 3) && (negb (n4 =? 24) || (n100 =? 3)) in
    let m := Z.shiftr (n + 50) 5 in
    let preceding :=
      DAYS_BEFORE_MONTH m + (if (2 <? m) && leapyear then 1 else 0) in
    if n <? preceding then
      let m := m - 1 in
      let preceding :=
        preceding - (DAYS_IN_MONTH m + (if (m =? 2) && leapyear then 1 else 0)) in
      (y, m, n - preceding + 1)
    else (y, m, n - preceding + 1).

(** The invariant every Python [datetime] object satisfies (its
    constructor refuses anything else). *)
Definition valid_datetimeb (d : datetime) : bool :=
  (MINYEAR <=? year d) && (year d <=? MAXYEAR) &&
  (1 <=? month d) && (month d <=? 12) &&
  (1 <=? day d) && (day d <=? days_in_month (year d) (month d)) &&
  (0 <=? hour d) && (hour d <? 24) &&
  (0 <=? minute d) && (minute d <? 60) &&
  (0 <=? second d) && (second d <? 60) &&
  (0 <=? microsecond d) && (microsecond d <? 1000000).

Definition valid_datetime (d : datetime) : Prop := valid_datetimeb d = true.

Definition toordinal (d : datetime) : Z := ymd2ord (year d) (month d) (day d).

Definition US_PER_SECOND : Z := 1000000.
Definition US_PER_DAY : Z := 86400 * US_PER_SECOND.

(** ** [timedelta]

    A [timedelta] is kept as its exact length in microseconds; Python
    normalises to (days, seconds, microseconds) and refuses
    [|days| > 999999999]. *)
Definition timedelta : Type := Z.

Definition td_days (t : timedelta) : Z := t / US_PER_DAY.
Definition td_seconds (t : timedelta) : Z := (t mod US_PER_DAY) / US_PER_SECOND.
Definition td_microseconds (t : timedelta) : Z := (t mod US_PER_DAY) mod US_PER_SECOND.

Definition mk_timedelta (us : Z) : result timedelta :=
  if Z.abs (td_days us) <=? 999999999 then Ok us else Raise OverflowError.

Definition timedelta_days (n : Z) : result timedelta := mk_timedelta (n * US_PER_DAY).
Definition timedelta_hours (n : Z) : result timedelta :=
  mk_timedelta (n * 3600 * US_PER_SECOND).
Definition timedelta_minutes (n : Z) : result timedelta :=
  mk_timedelta (n * 60 * US_PER_SECOND).
Definition timedelta_seconds (n : Z) : result timedelta :=
  mk_timedelta (n * US_PER_SECOND).

(** The datetime as a [timedelta] since ordinal 0, as [__add__] and
    [__sub__] build it. *)
Definition to_microseconds (d : datetime) : Z :=
  (toordinal d * 86400 + hour d * 3600 + minute d * 60 + second d) * US_PER_SECOND
  + microsecond d.

(** [datetime.__add__(self, timedelta)] *)
Definition datetime_add (d : datetime) (t : timedelta) : result datetime :=
  result_bind (mk_timedelta (to_microseconds d + t)) (fun delta =>
    let hour' := td_seconds delta / 3600 in
    let rem := td_seconds delta mod 3600 in
    let minute' := rem / 60 in
    let second' := rem mod 60 in
    if (0 <? td_days delta) && (td_days delta <=? MAXORDINAL) then
      let '(y, m, dd) := ord2ymd (td_days delta) in
      Ok (mk_datetime y m dd hour' minute' second' (td_microseconds delta) (tzinfo d))
    else Raise OverflowError).

(** [datetime.__sub__(self, timedelta)] is [self + -other]; negating
    the largest timedelta overflows. *)
Definition datetime_sub (d : datetime) (t : timedelta) : result datetime :=
  result_bind (mk_timedelta (- t)) (datetime_add d).

(** [a - b] for two datetimes of the same kind: a timedelta. *)
Definition datetime_diff (a b : datetime) : timedelta :=
  to_microseconds a - to_microseconds b.

(** Comparison of datetimes is the lexicographic comparison of the
    field tuples ([_cmp]); mixing naive and aware raises. *)
Definition fields (d : datetime) : list Z :=
  [year d; month d; day d; hour d; minute d; second d; microsecond d].

Fixpoint lex_compare (a b : list Z) : comparison :=
  match a, b with
  | [], [] => Eq
  | [], _ :: _ => Lt
  | _ :: _, [] => Gt
  | x :: a', y :: b' =>
      match x ?= y with
      | Eq => lex_compare a' b'
      | c => c
      end
  end.

Definition same_kind (a b : datetime) : bool :=
  match tzinfo a, tzinfo b with
  | None, None => true
  | Some _, Some _ => true
  | _, _ => false
  end.

Definition datetime_gt (a b : datetime) : result bool :=
  if same_kind a b then
    Ok (match lex_compare (fields a) (fields b) with Gt => true | _ => false end)
  else Raise TypeError.

(** ** [strftime] and [strptime] for ['%Y-%m-%d %H:%M:%S']

    The only format string in the program.  The year is written on
    four digits and every other field on two.  (For years below 1000
    the C library of some platforms leaves out the leading zeros of
    [%Y]; the program formats times around the present and sums of
    such times with a lead and with six hours.) *)

Definition digit_char (n : Z) : ascii :=
  ascii_of_N (48 + Z.to_N (n mod 10)).

Definition digit_value (c : ascii) : option Z :=
  let n := Z.of_N (N_of_ascii c) in
  if (48 <=? n) && (n <=? 57) then Some (n - 48) else None.

Definition pad2 (n : Z) (k : string) : string :=
  String (digit_char (n / 10)) (String (digit_char n) k).

Definition pad4 (n : Z) (k : string) : string :=
  String (digit_char (n / 1000)) (String (digit_char (n / 100)) (pad2 n k)).

Definition lit (c : ascii) (k : string) : string := String c k.

Definition strftime (d : datetime) : string :=
  pad4 (year d) (lit "-" (pad2 (month d) (lit "-" (pad2 (day d) (lit " "
    (pad2 (hour d) (lit ":" (pad2 (minute d) (lit ":"
      (pad2 (second d) EmptyString)))))))))).

Fixpoint read_digits (k : nat) (acc : Z) (s : string) : option (Z * string) :=
  match k with
  | O => Some (acc, s)
  | S k' =>
      match s with
      | String c s' =>
          match digit_value c with
          | Some v => read_digits k' (10 * acc + v) s'
          | None => None
          end
      | EmptyString => None
      end
  end.

Definition expect (c : ascii) (s : string) : option string :=
  match s with
  | String c' s' => if Ascii.eqb c c' then Some s' else None
  | EmptyString => None
  end.

Definition obind {A B} (o : option A) (k : A -> option B) : option B :=
  match o with Some a => k a | None => None end.

(** The text is split into its six numeric fields.  Python's
    [strptime] also tolerates one-digit fields and runs of blanks;
    [strftime] never writes those, and every string the program parses
    was written by [strftime] with this same format, so only the
    canonical spelling is read here. *)
Definition scan_fields (s : string) : option (Z * Z * Z * Z * Z * Z) :=
  obind (read_digits 4 0 s) (fun '(y, s) =>
  obind (expect "-" s) (fun s =>
  obind (read_digits 2 0 s) (fun '(m, s) =>
  obind (expect "-" s) (fun s =>
  obind (read_digits 2 0 s) (fun '(d, s) =>
  obind (expect " " s) (fun s =>
  obind (read_digits 2 0 s) (fun '(hh, s) =>
  obind (expect ":" s) (fun s =>
  obind (read_digits 2 0 s) (fun '(mm, s) =>
  obind (expect ":" s) (fun s =>
  obind (read_digits 2 0 s) (fun '(ss, s) =>
  match s with
  | EmptyString => Some (y, m, d, hh, mm, ss)
  | _ => None            (* "unconverted data remains" *)
  end))))))))))).

(** [datetime.strptime(s, '%Y-%m-%d %H:%M:%S')]: a naive datetime with
    [microsecond = 0], or [ValueError]. *)
Definition strptime (s : string) : result datetime :=
  match scan_fields s with
  | Some (y, m, d, hh, mm, ss) =>
      let r := mk_datetime y m d hh mm ss 0 None in
      if valid_datetimeb r then Ok r else Raise ValueError
  | None => Raise ValueError
  end.

(** What survives a trip through the text form: whole seconds, no
    time zone. *)
Definition truncate_to_seconds (d : datetime) : datetime :=
  mk_datetime (year d) (month d) (day d) (hour d) (minute d) (second d) 0 None.

(** ** Checking one 400-year cycle

    The Gregorian calendar repeats every [DI400Y] days, so facts about
    [ord2ymd] are checked on the ordinals of the first cycle and moved
    to any other cycle by a shift of the year. *)
Fixpoint all_from (k : nat) (z : Z) (p : Z -> bool) : bool :=
  match k with
  | O => true
  | S k' => if p z then all_from k' (z + 1) p else false
  end.

Definition cycle_ok (r : Z) : bool :=
  let '(y, m, d) := ord2ymd (r + 1) in
  (1 <=? y) && (y <=? 400) && (1 <=? m) && (m <=? 12) &&
  (1 <=? d) && (d <=? days_in_month y m) && (ymd2ord y m d =? r + 1).

(** The part of [ord2ymd] that follows the first [divmod], and the
    shift of a date by whole years. *)
Definition in_cycle (n400 r : Z) : Z * Z * Z :=
  let y := n400 * 400 + 1 in
  let n100 := r / DI100Y in
  let n := r mod DI100Y in
  let n4 := n / DI4Y in
  let n := n mod DI4Y in
  let n1 := n / 365 in
  let n := n mod 365 in
  let y := y + n100 * 100 + n4 * 4 + n1 in
  if (n1 =? 4) || (n100 =? 4) then (y - 1, 12, 31)
  else
    let leapyear := (n1 =? 3) && (negb (n4 =? 24) || (n100 =? 3)) in
    let m := Z.shiftr (n + 50) 5 in
    let preceding :=
      DAYS_BEFORE_MONTH m + (if (2 <? m) && leapyear then 1 else 0) in
    if n <? preceding then
      let m := m - 1 in
      let preceding :=
        preceding - (DAYS_IN_MONTH m + (if (m =? 2) && leapyear then 1 else 0)) in
      (y, m, n - preceding + 1)
    else (y, m, n - preceding + 1).

Definition shift_year (k : Z) (t : Z * Z * Z) : Z * Z * Z :=
  let '(y, m, d) := t in (y + k, m, d).

End PyDatetime.

(* ================================================================= *)
(** ** Python's [str], as far as [app.py] uses it *)

Module PyStr.

Local Open Scope N_scope.

(** [str.isspace] on the ASCII range: TAB..CR, FS..US and the blank.
    Satellite names come from a TLE catalogue and are ASCII. *)
Definition is_space (c : ascii) : bool :=
  let n := N_of_ascii c in
  ((9 <=? n) && (n <=? 13)) || ((28 <=? n) && (n <=? 32)).

Definition upper_char (c : ascii) : ascii :=
  let n := N_of_ascii c in
  if (97 <=? n) && (n <=? 122) then ascii_of_N (n - 32) else c.

Fixpoint upper (s : string) : string :=
  match s with
  | EmptyString => EmptyString
  | String c s' => String (upper_char c) (upper s')
  end.

Fixpoint lstrip (s : string) : string :=
  match s with
  | EmptyString => EmptyString
  | String c s' => if is_space c then lstrip s' else s
  end.

Fixpoint rstrip (s : string) : string :=
  match s with
  | EmptyString => EmptyString
  | String c s' =>
      match rstrip s' with
      | EmptyString => if is_space c then EmptyString else String c EmptyString
      | r => String c r
      end
  end.

Definition strip (s : string) : string := rstrip (lstrip s).

Fixpoint startswith (p s : string) : bool :=
  match p, s with
  | EmptyString, _ => true
  | String a p', String b s' => Ascii.eqb a b && startswith p' s'
  | String _ _, EmptyString => false
  end.

(** [needle in hay] *)
Fixpoint contains (needle hay : string) : bool :=
  startswith needle hay ||
  match hay with
  | EmptyString => false
  | String _ hay' => contains needle hay'
  end.

(** Blank strings, and strings that begin or end with a blank. *)
Fixpoint all_space (s : string) : bool :=
  match s with
  | EmptyString => true
  | String c s' => is_space c && all_space s'
  end.

Definition head_is_space (s : string) : bool :=
  match s with
  | EmptyString => false
  | String c _ => is_space c
  end.

Fixpoint last_is_space (s : string) : bool :=
  match s with
  | EmptyString => false
  | String c EmptyString => is_space c
  | String _ s' => last_is_space s'
  end.


End PyStr.

(* ================================================================= *)
(** ** The process: clock, scheduler job set, mail and map artifact *)

Module Runtime.
Import PyDatetime.

(** One message handed to the SMTP transport. *)
Record email : Type := mk_email {
  subject : string;
  recipient : string;
  body : string
}.

Inductive job_state : Type := Pending | Fired | Expired | Cancelled.

(** A job of the background scheduler: a one-shot ['date'] trigger and
    the arguments of the function to call. *)
Record SchedulerJob : Type := mk_job {
  job_id : nat;
  fireAtUtc : datetime;           (* run_date *)
  graceWindowSeconds : Z;         (* misfire_grace_time *)
  payload : string * string;      (* args = [user_id, message] *)
  state : job_state
}.

(** The mutable state of the server process.  [ticks] counts the
    readings of the wall clock taken so far; [map_saves] lists the
    writes of [static/map.html], latest last, each by the centre the
    grid was drawn around. *)
Record process : Type := mk_process {
  ticks : nat;
  job_set : list SchedulerJob;
  next_job_id : nat;
  outbox : list email;
  map_saves : list (float * float)
}.

Definition set_ticks (n : nat) (p : process) : process :=
  mk_process n (job_set p) (next_job_id p) (outbox p) (map_saves p).

Definition set_jobs (js : list SchedulerJob) (n : nat) (p : process) : process :=
  mk_process (ticks p) js n (outbox p) (map_saves p).

Definition set_outbox (o : list email) (p : process) : process :=
  mk_process (ticks p) (job_set p) (next_job_id p) o (map_saves p).

Definition set_map_saves (m : list (float * float)) (p : process) : process :=
  mk_process (ticks p) (job_set p) (next_job_id p) (outbox p) m.

(** The process after [js] more jobs were added to the set. *)
Definition with_jobs (js : list SchedulerJob) (p : process) : process :=
  set_jobs (job_set p ++ js) (next_job_id p + List.length js)%nat p.

(** Computations that read and write the process and may raise; what
    was written before a [raise] stays written. *)
Definition M (A : Type) : Type := process -> result A * process.

Definition ret {A} (a : A) : M A := fun p => (Ok a, p).

Definition bind {A B} (c : M A) (k : A -> M B) : M B :=
  fun p =>
    match c p with
    | (Ok a, p') => k a p'
    | (Raise e, p') => (Raise e, p')
    end.

Definition lift {A} (r : result A) : M A := fun p => (r, p).

Definition try_except {A} (c : M A) (handler : exn -> M A) : M A :=
  fun p =>
    match c p with
    | (Ok a, p') => (Ok a, p')
    | (Raise e, p') => handler e p'
    end.

Definition modify (f : process -> process) : M unit := fun p => (Ok tt, f p).

(** [for x in l: acc = body(acc, x)] *)
Fixpoint foreach {A S} (body : S -> A -> M S) (l : list A) (acc : S) : M S :=
  match l with
  | [] => ret acc
  | x :: l' => bind (body acc x) (foreach body l')
  end.

End Runtime.

Declare Scope py_scope.
Delimit Scope py_scope with py.
Notation "x <- c ;; k" := (Runtime.bind c (fun x => k))
  (at level 61, c at next level, right associativity) : py_scope.
Notation "' pat <- c ;; k" := (Runtime.bind c (fun x => match x with pat => k end))
  (at level 61, pat pattern, c at next level, right associativity) : py_scope.
Notation "c ;; k" := (Runtime.bind c (fun _ => k))
  (at level 61, right associativity) : py_scope.

(* ================================================================= *)
(** ** Everything outside [app.py] that the handler consults

    The collaborators are taken on the path where their input and
    output succeed: the catalogue is loaded, the mail transport and the
    map file accept what they are given.  What the handler itself can
    raise (a missing or unconvertible field, date arithmetic out of
    range) is modelled. *)

Module Env.
Import PyDatetime.

(** A catalogue entry ([EarthSatellite]): its name, and its catalogue
    number standing for the orbital elements. *)
Record EarthSatellite : Type := mk_satellite {
  name : string;
  satnum : Z
}.

Record t : Type := mk_env {
  (** [float(s)] and [int(s)]; [None] is [ValueError]. *)
  py_float : string -> option float;
  py_int : string -> option Z;
  (** [load.tle_file(...)]: the catalogue, in file order. *)
  tle_file : list EarthSatellite;
  (** [satellite.find_events(location, t0, t1, altitude_degrees=30.0)]:
      the (time, event) pairs, times given as their [utc_datetime()];
      event 0 is a rise, 1 a culmination, 2 a set. *)
  find_events : EarthSatellite -> float -> float -> datetime -> datetime ->
                list (datetime * Z);
  (** The successive readings of the wall clock (UTC fields). *)
  clock : nat -> datetime
}.

End Env.

(* ================================================================= *)
(** ** The scheduler *)

Module Scheduler.
Import PyDatetime Runtime.
Local Open Scope py_scope.

(** Modelled from the spec: the job set of the background scheduler,
    which belongs to the scheduling library and is not part of
    [app.py].  Section 3: a job is keyed by a unique identifier and
    starts [Pending]; section 4.3: no deduplication.  This is the call
    [scheduler.add_job(func=..., trigger='date', run_date=...,
    args=[...], misfire_grace_time=...)]: a new pending job under a
    fresh identifier is appended to the job set. *)
Definition add_job (run_date : datetime) (args : string * string)
    (misfire_grace_time : Z) : M nat :=
  fun p =>
    let j := mk_job (next_job_id p) run_date misfire_grace_time args Pending in
    (Ok (next_job_id p), set_jobs (job_set p ++ [j]) (S (next_job_id p)) p).

(** Modelled from the spec: the dispatch loop of the background
    scheduler, which belongs to the scheduling library and is not part
    of [app.py].  Section 4.3: a pending job evaluated at [now] stays
    pending while [now < fireAtUtc], becomes [Fired] when
    [fireAtUtc <= now <= fireAtUtc + grace], and becomes [Expired],
    without firing, when [now > fireAtUtc + grace]; both are terminal.
    The result is the job afterwards and whether it fires now. *)
Definition evaluate (now : datetime) (j : SchedulerJob) : SchedulerJob * bool :=
  match state j with
  | Pending =>
      let late := datetime_diff now (fireAtUtc j) in
      if late <? 0 then (j, false)
      else if late <=? graceWindowSeconds j * US_PER_SECOND then
        (mk_job (job_id j) (fireAtUtc j) (graceWindowSeconds j) (payload j) Fired, true)
      else
        (mk_job (job_id j) (fireAtUtc j) (graceWindowSeconds j) (payload j) Expired, false)
  | _ => (j, false)
  end.

(** How late [now] is for the job, and the job moved to a state. *)
Definition lateness (now : datetime) (j : SchedulerJob) : Z :=
  datetime_diff now (fireAtUtc j).

Definition mark (s : job_state) (j : SchedulerJob) : SchedulerJob :=
  mk_job (job_id j) (fireAtUtc j) (graceWindowSeconds j) (payload j) s.

Definition fires (now : datetime) (j : SchedulerJob) : bool := snd (evaluate now j).

(** Modelled from the spec: one round of the dispatch loop at [now].
    Every job of the set is evaluated independently; those that fire
    have [func] called with their arguments, in job order. *)
Definition dispatch (func : string -> string -> M unit) (now : datetime) : M unit :=
  fun p =>
    let evaluated := map (evaluate now) (job_set p) in
    foreach (fun (_ : unit) (r : SchedulerJob * bool) =>
               if snd r then func (fst (payload (fst r))) (snd (payload (fst r)))
               else ret tt)
            evaluated tt
            (set_jobs (map fst evaluated) (next_job_id p) p).

(** Modelled from the spec: the rounds of the dispatch loop at the
    successive times [nows]. *)
Fixpoint dispatch_all (func : string -> string -> M unit) (nows : list datetime)
  : M unit :=
  match nows with
  | [] => ret tt
  | now :: rest => dispatch func now ;; dispatch_all func rest
  end.

(** Modelled from the spec: the life of one job under evaluations at
    the successive times [nows]: the job at the end and how many times
    it fired. *)
Fixpoint life (nows : list datetime) (j : SchedulerJob) : SchedulerJob * nat :=
  match nows with
  | [] => (j, O)
  | now :: rest =>
      let '(j', fire) := evaluate now j in
      let '(j'', n) := life rest j' in
      (j'', (if fire then 1 else 0) + n)%nat
  end.

End Scheduler.

(* ================================================================= *)
(** ** [app.py] *)

Module App.
Import PyDatetime PyStr Runtime.
Local Open Scope py_scope.

Definition aware (r : datetime) : datetime :=
  mk_datetime (year r) (month r) (day r) (hour r) (minute r) (second r)
              (microsecond r) (Some UTC).

Definition naive (r : datetime) : datetime :=
  mk_datetime (year r) (month r) (day r) (hour r) (minute r) (second r)
              (microsecond r) None.

(** [ts.now()]: one reading of the clock, as an aware UTC time. *)
Definition ts_now (E : Env.t) : M datetime :=
  fun p => (Ok (aware (Env.clock E (ticks p))), set_ticks (S (ticks p)) p).

(** [datetime.utcnow()]: one reading of the clock, naive. *)
Definition utcnow (E : Env.t) : M datetime :=
  fun p => (Ok (naive (Env.clock E (ticks p))), set_ticks (S (ticks p)) p).

(** The inner loop of [get_next_pass_times]: the first pair whose event
    is 0, where the loop breaks. *)
Fixpoint first_rise (evs : list (datetime * Z)) : option datetime :=
  match evs with
  | [] => None
  | (ti, event) :: evs' => if event =? 0 then Some ti else first_rise evs'
  end.

(** The body of the loop over the catalogue. *)
Definition next_pass_body (E : Env.t) (latitude longitude : float)
    (next_passes : list (string * string)) (satellite : Env.EarthSatellite)
  : M (list (string * string)) :=
  t0 <- ts_now E ;;
  two_days <- lift (timedelta_days 2) ;;
  t1 <- lift (datetime_add t0 two_days) ;;
  match first_rise (Env.find_events E satellite latitude longitude t0 t1) with
  | Some pass_time =>
      ret (next_passes ++ [(Env.name satellite, strftime pass_time)])
  | None => ret next_passes
  end.

Definition get_next_pass_times (E : Env.t) (latitude longitude : float)
  : M (list (string * string)) :=
  foreach (next_pass_body E latitude longitude) (Env.tle_file E) [].

Definition estimate_data_availability (pass_time_str : string) : result string :=
  result_bind (strptime pass_time_str) (fun pass_time =>
  result_bind (timedelta_hours 6) (fun six_hours =>
  result_bind (datetime_add pass_time six_hours) (fun t =>
  Ok (strftime t)))).

(** The two mail functions catch every transport failure themselves;
    what is recorded is the message handed to the transport. *)
Definition send_mail (m : email) : M unit :=
  modify (fun p => set_outbox (outbox p ++ [m]) p).

Definition confirmation_mail (user_id : string) : email :=
  mk_email "Confirmation: Satellite Pass Notification Request Received" user_id
    "Thank you for your request! We will notify you when the satellite passes over your location.".

Definition notification_mail (user_id message : string) : email :=
  mk_email "Satellite Pass Notification" user_id message.

Definition send_confirmation_email (user_id : string) : M unit :=
  send_mail (confirmation_mail user_id).

Definition send_notification (user_id message : string) : M unit :=
  send_mail (notification_mail user_id message).

Definition schedule_notification (notification_time_str user_id message : string)
  : M unit :=
  notification_time <- lift (strptime notification_time_str) ;;
  _ <- Scheduler.add_job notification_time (user_id, message) 3600 ;;
  ret tt.

(** The map is saved to [static/map.html]. *)
Definition display_grid_on_map (latitude longitude : float) : M unit :=
  modify (fun p => set_map_saves (map_saves p ++ [(latitude, longitude)]) p).

(** *** The request and the response *)

Inductive http_method : Type := GET | POST.

Record request : Type := mk_request {
  method : http_method;
  form : list (string * string)
}.

(** [request.form[key]]: the first value under [key]. *)
Fixpoint form_get (f : list (string * string)) (key : string) : result string :=
  match f with
  | [] => Raise KeyError
  | (k, v) :: f' => if String.eqb k key then Ok v else form_get f' key
  end.

Definition convert {A} (conv : string -> option A) (s : string) : result A :=
  match conv s with
  | Some a => Ok a
  | None => Raise ValueError
  end.

(** The four reads at the top of the [try] block, in their order. *)
Definition read_form (E : Env.t) (req : request)
  : result (float * float * Z * string) :=
  result_bind (result_bind (form_get (form req) "latitude")
                           (convert (Env.py_float E))) (fun latitude =>
  result_bind (result_bind (form_get (form req) "longitude")
                           (convert (Env.py_float E))) (fun longitude =>
  result_bind (result_bind (form_get (form req) "notification_time")
                           (convert (Env.py_int E))) (fun notification_time =>
  result_bind (form_get (form req) "user_id") (fun user_id =>
  Ok (latitude, longitude, notification_time, user_id))))).

(** The text shown on the error page: a fixed sentence, or [str(e)] of
    a caught exception. *)
Inductive error_message : Type :=
| Text (s : string)
| StrOf (e : exn).

Inductive response : Type :=
| home_html
| error_html (msg : error_message)
| confirmation_html
    (next_passes scheduled_notifications data_availabilities : list (string * string))
    (user_id : string).

Definition no_passes_message : string :=
  "No future satellite passes found within the next 48 hours for Landsat 8 or 9.".

Definition interesting (satellite_name : string) : bool :=
  let satellite_name_normalized := upper (strip satellite_name) in
  contains "LANDSAT 8" satellite_name_normalized
  || contains "LANDSAT 9" satellite_name_normalized.

Definition pass_message (satellite_name pass_time_str : string) : string :=
  (satellite_name ++ " will pass over your location at " ++ pass_time_str ++ " UTC")%string.

(** The body of the loop over [next_passes] in [home]; the accumulator
    is the pair ([scheduled_notifications], [data_availabilities]). *)
Definition pass_body (user_id : string) (notification_time : Z) (now : datetime)
    (acc : list (string * string) * list (string * string))
    (p : string * string)
  : M (list (string * string) * list (string * string)) :=
  let '(scheduled_notifications, data_availabilities) := acc in
  let '(satellite_name, pass_time_str) := p in
  if interesting satellite_name then
    pass_time <- lift (strptime pass_time_str) ;;
    lead <- lift (timedelta_minutes notification_time) ;;
    notify_time <- lift (datetime_sub pass_time lead) ;;
    later <- lift (datetime_gt notify_time now) ;;
    if (later : bool) then
      let notify_time_str := strftime notify_time in
      let message := pass_message satellite_name pass_time_str in
      schedule_notification notify_time_str user_id message ;;
      let scheduled_notifications :=
        scheduled_notifications ++ [(satellite_name, notify_time_str)] in
      data_availability_str <- lift (estimate_data_availability pass_time_str) ;;
      ret (scheduled_notifications,
           data_availabilities ++ [(satellite_name, data_availability_str)])
    else ret acc
  else ret acc.

(** The loop over [next_passes], from two empty lists. *)
Definition pass_filter (user_id : string) (notification_time : Z) (now : datetime)
    (next_passes : list (string * string))
  : M (list (string * string) * list (string * string)) :=
  foreach (pass_body user_id notification_time now) next_passes ([], []).

Definition home (E : Env.t) (req : request) : M response :=
  match method req with
  | POST =>
      try_except
        (' (latitude, longitude, notification_time, user_id) <-
           lift (read_form E req) ;;
         send_confirmation_email user_id ;;
         next_passes <- get_next_pass_times E latitude longitude ;;
         now <- utcnow E ;;
         ' (scheduled_notifications, data_availabilities) <-
           pass_filter user_id notification_time now next_passes ;;
         match scheduled_notifications with
         | [] => ret (error_html (Text no_passes_message))
         | _ :: _ =>
             display_grid_on_map latitude longitude ;;
             ret (confirmation_html scheduled_notifications scheduled_notifications
                                    data_availabilities user_id)
         end)
        (fun e => ret (error_html (StrOf e)))
  | GET => ret home_html
  end.

(** The mail a job of this program sends when it fires. *)
Definition mail_of_job (j : SchedulerJob) : email :=
  notification_mail (fst (payload j)) (snd (payload j)).

(** The background scheduler of this program calls [send_notification]. *)
Definition run_scheduler (nows : list datetime) : M unit :=
  Scheduler.dispatch_all send_notification nows.

End App.

(* ================================================================= *)
(** ** What the loop of [home] is meant to compute

    The steps of the pass filter, as relations between an event of
    [next_passes] and what the loop leaves behind for it. *)

Module PassFilterSpec.
Import PyDatetime PyStr Runtime App.

(** [pass_time - timedelta(minutes=lead)] *)
Definition fire_time (lead_minutes : Z) (pass_time : datetime) : result datetime :=
  result_bind (timedelta_minutes lead_minutes) (datetime_sub pass_time).

(** [pass_time + timedelta(hours=6)] *)
Definition availability_time (pass_time : datetime) : result datetime :=
  result_bind (timedelta_hours 6) (datetime_add pass_time).

Section Filter.
Variables (user_id : string) (lead_minutes : Z) (now : datetime).

(** The event leaves no trace: its name is of no interest, or its
    notification time is not after [now]. *)
Definition dropped (ev : string * string) : Prop :=
  interesting (fst ev) = false \/
  (interesting (fst ev) = true /\
   exists pass_time notify_time,
     strptime (snd ev) = Ok pass_time /\
     fire_time lead_minutes pass_time = Ok notify_time /\
     datetime_gt notify_time now = Ok false).

(** The event is kept: [sn] is its entry of [scheduled_notifications],
    [da] its entry of [data_availabilities] and [j] its job. *)
Definition emitted (ev sn da : string * string) (j : SchedulerJob) : Prop :=
  interesting (fst ev) = true /\
  exists pass_time notify_time available,
    strptime (snd ev) = Ok pass_time /\
    fire_time lead_minutes pass_time = Ok notify_time /\
    datetime_gt notify_time now = Ok true /\
    availability_time pass_time = Ok available /\
    sn = (fst ev, strftime notify_time) /\
    da = (fst ev, strftime available) /\
    fireAtUtc j = notify_time /\
    graceWindowSeconds j = 3600 /\
    payload j = (user_id, pass_message (fst ev) (snd ev)) /\
    state j = Pending.

Inductive filtered :
  list (string * string) -> list (string * string) -> list (string * string) ->
  list SchedulerJob -> Prop :=
| filtered_nil : filtered [] [] [] []
| filtered_drop ev evs sns das js :
    dropped ev -> filtered evs sns das js -> filtered (ev :: evs) sns das js
| filtered_keep ev evs sn da j sns das js :
    emitted ev sn da j -> filtered evs sns das js ->
    filtered (ev :: evs) (sn :: sns) (da :: das) (j :: js).

End Filter.

(** [t] is the time of the first rise (event 0) of the sequence. *)
Definition is_first_rise (evs : list (datetime * Z)) (t : datetime) : Prop :=
  exists before after,
    evs = before ++ (t, 0) :: after /\ Forall (fun e => snd e <> 0) before.

Definition no_rise (evs : list (datetime * Z)) : Prop :=
  Forall (fun e => snd e <> 0) evs.

(** What one satellite contributes to [next_passes]: its first rise,
    if it has one. *)
Definition contribution (satellite_name : string) (evs : list (datetime * Z))
  : list (string * string) :=
  match first_rise evs with
  | Some pass_time => [(satellite_name, strftime pass_time)]
  | None => []
  end.

(** [c] is what the catalogue entry [sat] contributes: its first rise
    among the events found between one reading [t0] of the clock and
    [t0 + 2 days]. *)
Definition queried (E : Env.t) (latitude longitude : float)
    (sat : Env.EarthSatellite) (c : list (string * string)) : Prop :=
  exists k t1,
    datetime_add (aware (Env.clock E k)) (2 * US_PER_DAY) = Ok t1 /\
    let evs := Env.find_events E sat latitude longitude (aware (Env.clock E k)) t1 in
    c = contribution (Env.name sat) evs /\
    ((no_rise evs /\ c = []) \/
     (exists t, is_first_rise evs t /\ c = [(Env.name sat, strftime t)])).

End PassFilterSpec.

(* ================================================================= *)
(** ** A concrete environment, for running the handler *)

Module Sample.
Import PyDatetime PyStr Runtime App.

(** The integer-literal fragment of [int()] and [float()]: blanks
    around, an optional sign, decimal digits. *)
Fixpoint digits (acc : Z) (s : string) : option Z :=
  match s with
  | EmptyString => Some acc
  | String c s' =>
      match digit_value c with
      | Some v => digits (10 * acc + v) s'
      | None => None
      end
  end.

Definition int_literal (s : string) : option Z :=
  match strip s with
  | EmptyString => None
  | String "-" EmptyString => None
  | String "+" EmptyString => None
  | String "-" r => option_map Z.opp (digits 0 r)
  | String "+" r => digits 0 r
  | r => digits 0 r
  end.

Definition float_of_Z (z : Z) : float :=
  if z <? 0 then PrimFloat.opp (PrimFloat.of_uint63 (Uint63.of_Z (- z)))
  else PrimFloat.of_uint63 (Uint63.of_Z z).

Definition float_literal (s : string) : option float :=
  option_map float_of_Z (int_literal s).

Definition noon : datetime := mk_datetime 2024 6 1 12 0 0 250000 None.

Definition landsat8 : Env.EarthSatellite := Env.mk_satellite "LANDSAT 8" 39084.
Definition landsat9 : Env.EarthSatellite := Env.mk_satellite "LANDSAT 9" 49260.
Definition noaa19 : Env.EarthSatellite := Env.mk_satellite "NOAA 19" 33591.
Definition terra : Env.EarthSatellite := Env.mk_satellite "TERRA" 25994.

(** Seen from the sample site: LANDSAT 8 is setting at noon and rises
    again ten hours after noon and once more the next morning; NOAA 19
    rises two hours after noon; LANDSAT 9 rises ten minutes after noon;
    TERRA does not rise. *)
Definition landsat8_rise : datetime := mk_datetime 2024 6 1 22 0 0 654321 (Some UTC).

Definition events_of (s : Env.EarthSatellite) : list (datetime * Z) :=
  if Env.satnum s =? 39084 then
    [ (mk_datetime 2024 6 1 12 3 0 0 (Some UTC), 2);
      (landsat8_rise, 0);
      (mk_datetime 2024 6 1 22 4 0 0 (Some UTC), 1);
      (mk_datetime 2024 6 1 22 8 0 0 (Some UTC), 2);
      (mk_datetime 2024 6 2 9 30 0 0 (Some UTC), 0) ]
  else if Env.satnum s =? 33591 then
    [ (mk_datetime 2024 6 1 14 0 0 0 (Some UTC), 0) ]
  else if Env.satnum s =? 49260 then
    [ (mk_datetime 2024 6 1 12 10 0 0 (Some UTC), 0);
      (mk_datetime 2024 6 1 12 14 0 0 (Some UTC), 1) ]
  else [].

Definition env (catalogue : list Env.EarthSatellite) : Env.t :=
  Env.mk_env float_literal int_literal catalogue
             (fun s _ _ _ _ => events_of s) (fun _ => noon).

Definition catalogue : list Env.EarthSatellite := [noaa19; landsat8; landsat9; terra].

Definition idle : process := mk_process 0 [] 0 [] [].

(** What the pass oracle returns for the sample catalogue. *)
Definition passes : list (string * string) :=
  [ ("NOAA 19", "2024-06-01 14:00:00");
    ("LANDSAT 8", "2024-06-01 22:00:00");
    ("LANDSAT 9", "2024-06-01 12:10:00") ].

Definition landsat8_job : SchedulerJob :=
  mk_job 0 (mk_datetime 2024 6 1 21 30 0 0 None) 3600
         ("u@x.org", "LANDSAT 8 will pass over your location at 2024-06-01 22:00:00 UTC")
         Pending.

Definition post (latitude longitude notification_time user_id : string) : request :=
  mk_request POST [ ("latitude", latitude); ("longitude", longitude);
                    ("notification_time", notification_time);
                    ("user_id", user_id) ].

Definition landsat8_entry : string * string := ("LANDSAT 8", "2024-06-01 21:30:00").
Definition landsat8_available : string * string := ("LANDSAT 8", "2024-06-02 04:00:00").

(** A catalogue without LANDSAT 8: the only pass of interest begins ten
    minutes after noon, too soon for a lead of thirty minutes. *)
Definition quiet_catalogue : list Env.EarthSatellite := [noaa19; landsat9; terra].

Definition request_30 : request := post "34" "-118" "30" "u@x.org".

Definition quiet_after_mail : process :=
  set_outbox (outbox idle ++ [confirmation_mail "u@x.org"]) idle.

Definition quiet_passes : list (string * string) :=
  [ ("NOAA 19", "2024-06-01 14:00:00"); ("LANDSAT 9", "2024-06-01 12:10:00") ].

Definition quiet_after_oracle : process := set_ticks 3 quiet_after_mail.
Definition quiet_after_filter : process := set_ticks 4 quiet_after_mail.

(** The times around the fire time of the LANDSAT 8 job. *)
Definition fire_at : datetime := mk_datetime 2024 6 1 21 30 0 0 None.
Definition one_microsecond_early : datetime := mk_datetime 2024 6 1 21 29 59 999999 None.
Definition end_of_grace : datetime := mk_datetime 2024 6 1 22 30 0 0 None.
Definition one_microsecond_late : datetime := mk_datetime 2024 6 1 22 30 0 1 None.
Definition next_morning : datetime := mk_datetime 2024 6 2 8 0 0 0 None.

End Sample.

(* ================================================================= *)
(** ** The rest of [app.py], and what its properties are stated with *)

Module Routes.
Import PyDatetime Runtime App.

(** [map()]: [app.send_static_file('map.html')] serves the file that
    [display_grid_on_map] saves, so what it shows is the latest grid
    saved; [None] stands for the file as it was before this process
    wrote it (or not found). *)
Definition map_route (p : process) : option (float * float) :=
  match rev (map_saves p) with
  | [] => None
  | latest :: _ => Some latest
  end.

End Routes.

Module Bounds.
Import PyDatetime.

(** [datetime.max] *)
Definition datetime_max : datetime := mk_datetime 9999 12 31 23 59 59 999999 None.

(** [datetime.min] *)
Definition datetime_min : datetime := mk_datetime 1 1 1 0 0 0 0 None.

(** The instants, in microseconds since ordinal 0, that a datetime can
    hold. *)
Definition in_calendar (us : Z) : Prop :=
  to_microseconds datetime_min <= us <= to_microseconds datetime_max.

(** The events come in the order of time, as the provider returns
    them. *)
Definition chronological (evs : list (datetime * Z)) : Prop :=
  forall before e after e',
    evs = before ++ e :: after -> In e' after ->
    to_microseconds (fst e) <= to_microseconds (fst e').

(** The same, as a test. *)
Fixpoint chronologicalb (evs : list (datetime * Z)) : bool :=
  match evs with
  | [] => true
  | e :: rest =>
      forallb (fun e' => to_microseconds (fst e) <=? to_microseconds (fst e')) rest
      && chronologicalb rest
  end.

(** [l1] is [l2] with some elements left out. *)
Inductive Subseq {A : Type} : list A -> list A -> Prop :=
| Subseq_nil : Subseq [] []
| Subseq_skip x l1 l2 : Subseq l1 l2 -> Subseq l1 (x :: l2)
| Subseq_keep x l1 l2 : Subseq l1 l2 -> Subseq (x :: l1) (x :: l2).

End Bounds.

(** More of the sample environment. *)
Module MoreSample.
Import PyDatetime Runtime App Sample.

(** The process after the sample request was answered. *)
Definition after_request_30 : process :=
  Eval vm_compute in snd (home (env catalogue) request_30 idle).

(** A lead of about 1.9 million years. *)
Definition huge_request : request := post "34" "-118" "1000000000000" "u@x.org".

Definition after_huge_request : process :=
  Eval vm_compute in snd (home (env catalogue) huge_request idle).

(** A catalogue with LANDSAT 9 first, and a negative lead that puts the
    notification for LANDSAT 9 on 9999-12-31 at 20:00 and the one for
    LANDSAT 8 after the end of the calendar. *)
Definition late_catalogue : list Env.EarthSatellite := [landsat9; landsat8].

Definition late_lead : Z := -4194750710.

Definition late_request : request := post "34" "-118" "-4194750710" "u@x.org".

Definition landsat9_pass : string * string := ("LANDSAT 9", "2024-06-01 12:10:00").
Definition landsat8_pass : string * string := ("LANDSAT 8", "2024-06-01 22:00:00").

Definition late_after_oracle : process := set_ticks 2 quiet_after_mail.

Definition late_after_first : process :=
  Eval vm_compute in
    snd (pass_filter "u@x.org" late_lead noon [landsat9_pass]
                     (set_ticks 3 quiet_after_mail)).

(** A catalogue without any LANDSAT. *)
Definition other_catalogue : list Env.EarthSatellite := [noaa19; terra].

End MoreSample.

(* ================================================================= *)
(** * Lemmas, component by component *)

(** ** The calendar *)

Module CalendarFacts.
Import PyDatetime.

Lemma all_from_spec (p : Z -> bool) :
  forall k z, all_from k z p = true ->
  forall x, z <= x < z + Z.of_nat k -> p x = true.
Proof.
  induction k as [|k IH]; intros z H x Hx; simpl in *.
  - lia.
  - destruct (p z) eqn:Hz; [|discriminate].
    destruct (Z.eq_dec x z) as [->|Hne]; [assumption|].
    apply (IH (z + 1) H). lia.
Qed.

(** Every day of one 400-year cycle, checked one by one. *)
Lemma cycle_checked : all_from (Z.to_nat DI400Y) 0 cycle_ok = true.
Proof. vm_compute. reflexivity. Qed.

Lemma cycle_ok_all r : 0 <= r < DI400Y -> cycle_ok r = true.
Proof.
  intros Hr. apply (all_from_spec cycle_ok _ _ cycle_checked).
  rewrite Z2Nat.id by (unfold DI400Y; lia). lia.
Qed.

Lemma ord2ymd_in_cycle n :
  ord2ymd n = in_cycle ((n - 1) / DI400Y) ((n - 1) mod DI400Y).
Proof. reflexivity. Qed.

Lemma in_cycle_shift q r : in_cycle q r = shift_year (400 * q) (in_cycle 0 r).
Proof.
  unfold in_cycle. cbv zeta.
  destruct ((r mod DI100Y mod DI4Y / 365 =? 4) || (r / DI100Y =? 4)).
  - cbn [shift_year]. f_equal. f_equal. ring.
  - match goal with |- context [if ?c then _ else _] => destruct c end;
      cbn [shift_year]; f_equal; f_equal; ring.
Qed.

Lemma ord2ymd_shift n :
  ord2ymd n =
  shift_year (400 * ((n - 1) / DI400Y)) (ord2ymd ((n - 1) mod DI400Y + 1)).
Proof.
  rewrite (ord2ymd_in_cycle n), in_cycle_shift.
  f_equal. rewrite ord2ymd_in_cycle.
  replace ((n - 1) mod DI400Y + 1 - 1) with ((n - 1) mod DI400Y) by lia.
  assert (H : 0 <= (n - 1) mod DI400Y < DI400Y) by (unfold DI400Y; lia).
  rewrite (Z.mod_small _ _ H), (Z.div_small _ _ H). reflexivity.
Qed.

Lemma is_leap_shift y k : is_leap (y + 400 * k) = is_leap y.
Proof.
  unfold is_leap.
  replace ((y + 400 * k) mod 4) with (y mod 4) by lia.
  replace ((y + 400 * k) mod 100) with (y mod 100) by lia.
  replace ((y + 400 * k) mod 400) with (y mod 400) by lia.
  reflexivity.
Qed.

Lemma days_before_year_shift y k :
  days_before_year (y + 400 * k) = days_before_year y + DI400Y * k.
Proof. unfold days_before_year, DI400Y. cbv zeta. lia. Qed.

Lemma ymd2ord_shift y m d k :
  ymd2ord (y + 400 * k) m d = ymd2ord y m d + DI400Y * k.
Proof.
  unfold ymd2ord, days_before_month.
  rewrite is_leap_shift, days_before_year_shift. lia.
Qed.

Lemma days_in_month_shift y m k : days_in_month (y + 400 * k) m = days_in_month y m.
Proof. unfold days_in_month. rewrite is_leap_shift. reflexivity. Qed.

Lemma days_before_month_bounds y m :
  1 <= m <= 12 -> 0 <= days_before_month y m <= 335.
Proof.
  intros Hm. unfold days_before_month.
  assert (m = 1 \/ m = 2 \/ m = 3 \/ m = 4 \/ m = 5 \/ m = 6 \/ m = 7 \/
          m = 8 \/ m = 9 \/ m = 10 \/ m = 11 \/ m = 12) as Hc by lia.
  repeat (destruct Hc as [->|Hc]); try subst m;
    destruct (is_leap y); simpl; lia.
Qed.

(** [ord2ymd] returns a date of the calendar, and [ymd2ord] undoes it. *)
Lemma ord2ymd_spec n :
  1 <= n <= MAXORDINAL ->
  forall y m d, ord2ymd n = (y, m, d) ->
  MINYEAR <= y <= MAXYEAR /\ 1 <= m <= 12 /\ 1 <= d <= days_in_month y m /\
  ymd2ord y m d = n.
Proof.
  intros Hn y m d E.
  rewrite ord2ymd_shift in E.
  set (q := (n - 1) / DI400Y) in *.
  set (r := (n - 1) mod DI400Y) in *.
  assert (Hr : 0 <= r < DI400Y) by (subst r; unfold DI400Y; lia).
  assert (Hq : n = DI400Y * q + r + 1) by (subst q r; unfold DI400Y; lia).
  pose proof (cycle_ok_all r Hr) as C. unfold cycle_ok in C.
  destruct (ord2ymd (r + 1)) as [[y0 m0] d0].
  unfold shift_year in E.
  assert (Ey : y = y0 + 400 * q) by congruence.
  assert (Em : m = m0) by congruence.
  assert (Ed : d = d0) by congruence.
  clear E. subst y m d.
  rewrite !andb_true_iff in C.
  destruct C as [[[[[[C1 C2] C3] C4] C5] C6] C7].
  rewrite days_in_month_shift, ymd2ord_shift.
  apply Z.leb_le in C1, C2, C3, C4, C5, C6. apply Z.eqb_eq in C7.
  pose proof (days_before_month_bounds y0 m0 (conj C3 C4)) as B.
  unfold MINYEAR, MAXYEAR, MAXORDINAL, DI400Y in *.
  assert (Hy : 1 <= y0 + 400 * q <= 9999).
  { unfold ymd2ord, days_before_year in C7. cbv zeta in C7.
    generalize dependent (days_before_month y0 m0). intros dbm C7 B.
    clearbody q r. lia. }
  repeat split; try lia.
Qed.

(** ** Validity, unfolded *)
Lemma valid_datetime_iff d :
  valid_datetime d <->
  (MINYEAR <= year d <= MAXYEAR /\ 1 <= month d <= 12 /\
   1 <= day d <= days_in_month (year d) (month d) /\
   0 <= hour d < 24 /\ 0 <= minute d < 60 /\ 0 <= second d < 60 /\
   0 <= microsecond d < 1000000).
Proof.
  unfold valid_datetime, valid_datetimeb.
  rewrite !andb_true_iff, !Z.leb_le, !Z.ltb_lt. tauto.
Qed.

(** ** [datetime + timedelta] *)
Lemma datetime_add_spec d t d' :
  datetime_add d t = Ok d' ->
  valid_datetime d' /\
  to_microseconds d' = to_microseconds d + t /\
  tzinfo d' = tzinfo d.
Proof.
  unfold datetime_add, mk_timedelta, result_bind.
  set (total := to_microseconds d + t).
  destruct (Z.abs (td_days total) <=? 999999999); [|discriminate].
  destruct ((0 <? td_days total) && (td_days total <=? MAXORDINAL)) eqn:R;
    [|destruct (ord2ymd (td_days total)) as [[? ?] ?]; discriminate].
  apply andb_true_iff in R. destruct R as [R1 R2].
  apply Z.ltb_lt in R1. apply Z.leb_le in R2.
  destruct (ord2ymd (td_days total)) as [[y m] dd] eqn:E.
  intros H. injection H as <-.
  destruct (ord2ymd_spec (td_days total) ltac:(lia) y m dd E)
    as (Hy & Hm & Hd & Ho).
  split; [|split; [|reflexivity]].
  - apply valid_datetime_iff. cbn [year month day hour minute second microsecond].
    repeat split; try lia;
      unfold td_seconds, td_microseconds, US_PER_DAY, US_PER_SECOND;
      generalize total; intros; lia.
  - unfold to_microseconds, toordinal.
    cbn [year month day hour minute second microsecond]. rewrite Ho.
    unfold td_days, td_seconds, td_microseconds, US_PER_DAY, US_PER_SECOND.
    generalize total; intros; lia.
Qed.

(** ** Text round trip *)
Lemma digit_value_digit_char n :
  digit_value (digit_char n) = Some (n mod 10).
Proof.
  unfold digit_char.
  assert (H : 0 <= n mod 10 < 10) by lia.
  remember (n mod 10) as k eqn:Hk. clear Hk.
  assert (k = 0 \/ k = 1 \/ k = 2 \/ k = 3 \/ k = 4 \/ k = 5 \/ k = 6 \/
          k = 7 \/ k = 8 \/ k = 9) as Hc by lia.
  repeat (destruct Hc as [->|Hc]); try subst k; reflexivity.
Qed.

Lemma read_pad2 n acc k :
  0 <= n < 100 ->
  read_digits 2 acc (pad2 n k) = Some (100 * acc + n, k).
Proof.
  intros Hn. unfold pad2. cbn [read_digits].
  rewrite !digit_value_digit_char. do 2 f_equal. lia.
Qed.

Lemma read_pad4 n k :
  0 <= n < 10000 ->
  read_digits 4 0 (pad4 n k) = Some (n, k).
Proof.
  intros Hn. unfold pad4, pad2. cbn [read_digits].
  rewrite !digit_value_digit_char. do 2 f_equal. lia.
Qed.

Lemma days_in_month_le y m : days_in_month y m <= 31.
Proof.
  unfold days_in_month, DAYS_IN_MONTH.
  destruct ((m =? 2) && is_leap y); [lia|].
  destruct m as [|p|p]; try lia.
  do 4 (try destruct p as [p|p|]); lia.
Qed.

Lemma valid_truncate d : valid_datetime d -> valid_datetime (truncate_to_seconds d).
Proof.
  rewrite !valid_datetime_iff. unfold truncate_to_seconds.
  cbn [year month day hour minute second microsecond]. lia.
Qed.

Theorem strptime_strftime d :
  valid_datetime d -> strptime (strftime d) = Ok (truncate_to_seconds d).
Proof.
  intros V. pose proof (valid_truncate d V) as VT.
  apply valid_datetime_iff in V.
  destruct V as (Hy & Hm & Hd & Hh & Hmi & Hs & Hu).
  pose proof (days_in_month_le (year d) (month d)).
  unfold MINYEAR, MAXYEAR in *.
  unfold strptime, scan_fields, strftime, lit.
  rewrite read_pad4 by lia. cbn [obind expect Ascii.eqb Bool.eqb].
  rewrite read_pad2 by lia. cbn [obind expect Ascii.eqb Bool.eqb].
  rewrite read_pad2 by lia. cbn [obind expect Ascii.eqb Bool.eqb].
  rewrite read_pad2 by lia. cbn [obind expect Ascii.eqb Bool.eqb].
  rewrite read_pad2 by lia. cbn [obind expect Ascii.eqb Bool.eqb].
  rewrite read_pad2 by lia. cbn [obind].
  change (100 * 0 + ?x) with x.
  fold (truncate_to_seconds d). 
  unfold valid_datetime in VT. rewrite VT. reflexivity.
Qed.

(** ** The order of datetimes is the order of the time line *)
Lemma days_before_year_mono y y' :
  y < y' -> days_before_year y + 365 <= days_before_year y'.
Proof. unfold days_before_year. cbv zeta. lia. Qed.

Lemma days_before_year_succ y :
  days_before_year (y + 1) = days_before_year y + 365 + (if is_leap y then 1 else 0).
Proof.
  unfold days_before_year, is_leap. cbv zeta.
  replace (y + 1 - 1) with y by lia.
  destruct (y mod 4 =? 0) eqn:E4; destruct (y mod 100 =? 0) eqn:E100;
    destruct (y mod 400 =? 0) eqn:E400; simpl;
    rewrite ?Z.eqb_eq, ?Z.eqb_neq in *; lia.
Qed.

Lemma month_cases m :
  1 <= m <= 12 ->
  m = 1 \/ m = 2 \/ m = 3 \/ m = 4 \/ m = 5 \/ m = 6 \/ m = 7 \/
  m = 8 \/ m = 9 \/ m = 10 \/ m = 11 \/ m = 12.
Proof. lia. Qed.

Lemma month_end_before_next y m m' :
  1 <= m -> m < m' -> m' <= 12 ->
  days_before_month y m + days_in_month y m <= days_before_month y m'.
Proof.
  intros H1 H2 H3. unfold days_before_month, days_in_month.
  destruct (month_cases m ltac:(lia)) as [->|[->|[->|[->|[->|[->|[->|[->|[->|[->|[->| ->]]]]]]]]]]];
  destruct (month_cases m' ltac:(lia)) as [->|[->|[->|[->|[->|[->|[->|[->|[->|[->|[->| ->]]]]]]]]]]];
  try lia; destruct (is_leap y); simpl; lia.
Qed.

Lemma year_end y m :
  1 <= m <= 12 ->
  days_before_month y m + days_in_month y m <= 365 + (if is_leap y then 1 else 0).
Proof.
  intros H. unfold days_before_month, days_in_month.
  destruct (month_cases m H) as [->|[->|[->|[->|[->|[->|[->|[->|[->|[->|[->| ->]]]]]]]]]]];
  destruct (is_leap y); simpl; lia.
Qed.

Lemma toordinal_year_lt a b :
  valid_datetime a -> valid_datetime b ->
  year a < year b -> toordinal a < toordinal b.
Proof.
  rewrite !valid_datetime_iff. intros Va Vb Hlt.
  unfold toordinal, ymd2ord.
  pose proof (year_end (year a) (month a) ltac:(lia)).
  pose proof (days_before_year_succ (year a)).
  pose proof (days_before_month_bounds (year b) (month b) ltac:(lia)).
  assert (days_before_year (year a + 1) <= days_before_year (year b)).
  { destruct (Z.eq_dec (year a + 1) (year b)) as [->|Hne]; [lia|].
    pose proof (days_before_year_mono (year a + 1) (year b) ltac:(lia)). lia. }
  lia.
Qed.

Lemma toordinal_month_lt a b :
  valid_datetime a -> valid_datetime b ->
  year a = year b -> month a < month b -> toordinal a < toordinal b.
Proof.
  rewrite !valid_datetime_iff. intros Va Vb Hy Hlt.
  unfold toordinal, ymd2ord. rewrite Hy.
  pose proof (month_end_before_next (year b) (month a) (month b)
                ltac:(lia) Hlt ltac:(lia)).
  rewrite <- Hy in *. lia.
Qed.

Lemma lex_compare_fields a b :
  valid_datetime a -> valid_datetime b ->
  lex_compare (fields a) (fields b) = (to_microseconds a ?= to_microseconds b).
Proof.
  intros Va Vb.
  pose proof (toordinal_year_lt a b Va Vb) as Y1.
  pose proof (toordinal_year_lt b a Vb Va) as Y2.
  pose proof (toordinal_month_lt a b Va Vb) as M1.
  pose proof (toordinal_month_lt b a Vb Va) as M2.
  assert (D : year a = year b -> month a = month b ->
              toordinal a - toordinal b = day a - day b).
  { intros E1 E2. unfold toordinal, ymd2ord. rewrite E1, E2. lia. }
  apply valid_datetime_iff in Va, Vb.
  unfold to_microseconds, US_PER_SECOND.
  generalize dependent (toordinal a). generalize dependent (toordinal b).
  intros ob oa Y1 Y2 M1 M2 D.
  symmetry. unfold fields, lex_compare.
  repeat match goal with
         | |- context [?x ?= ?y] =>
             lazymatch x with
             | _ + _ => fail
             | _ => destruct (Z.compare_spec x y)
             end
         end;
    first [apply Z.compare_eq_iff | apply Z.compare_lt_iff | apply Z.compare_gt_iff];
    lia.
Qed.

Lemma datetime_gt_spec a b :
  valid_datetime a -> valid_datetime b -> same_kind a b = true ->
  datetime_gt a b = Ok (to_microseconds b <? to_microseconds a).
Proof.
  intros Va Vb K. unfold datetime_gt. rewrite K.
  rewrite (lex_compare_fields a b Va Vb), Z.ltb_antisym, Z.leb_compare.
  destruct (to_microseconds a ?= to_microseconds b); reflexivity.
Qed.

End CalendarFacts.

(** ** Strings *)

Module StrFacts.
Import PyStr.



Lemma lstrip_spec s :
  exists l, s = (l ++ lstrip s)%string /\ all_space l = true /\
            head_is_space (lstrip s) = false.
Proof.
  induction s as [|c s (l & E & A & H)].
  - exists "". auto.
  - cbn [lstrip]. destruct (is_space c) eqn:C.
    + exists (String c l). cbn. rewrite C, A, <- E. auto.
    + exists "". cbn. auto.
Qed.

Lemma rstrip_spec s :
  exists r, s = (rstrip s ++ r)%string /\ all_space r = true /\
            last_is_space (rstrip s) = false.
Proof.
  induction s as [|c s (r & E & A & L)].
  - exists "". auto.
  - cbn [rstrip]. destruct (rstrip s) as [|d t] eqn:R.
    + cbn in E. subst r. destruct (is_space c) eqn:C.
      * exists (String c s). cbn. rewrite C, A. auto.
      * exists s. cbn. rewrite C. auto.
    + exists r. cbn [append] in *. rewrite <- E. auto.
Qed.

Lemma rstrip_head s : head_is_space s = false -> head_is_space (rstrip s) = false.
Proof.
  destruct s as [|c s]; [reflexivity|]. cbn [head_is_space rstrip]. intros C.
  destruct (rstrip s); [rewrite C|]; cbn; assumption.
Qed.

(** [strip] removes a run of blanks at each end and nothing else. *)
Lemma strip_spec s :
  exists l r, s = (l ++ strip s ++ r)%string /\
              all_space l = true /\ all_space r = true /\
              head_is_space (strip s) = false /\ last_is_space (strip s) = false.
Proof.
  destruct (lstrip_spec s) as (l & El & Al & Hl).
  destruct (rstrip_spec (lstrip s)) as (r & Er & Ar & Lr).
  exists l, r. unfold strip. rewrite <- Er, <- El.
  repeat split; auto. now apply rstrip_head.
Qed.

Lemma upper_char_idempotent c : upper_char (upper_char c) = upper_char c.
Proof.
  destruct c as [[] [] [] [] [] [] [] []]; reflexivity.
Qed.

Lemma upper_idempotent s : upper (upper s) = upper s.
Proof.
  induction s as [|c s IH]; [reflexivity|].
  cbn [upper]. now rewrite upper_char_idempotent, IH.
Qed.

End StrFacts.

(** ** Datetimes and the loop of the pass filter *)

Module DatetimeFacts.
Import PyDatetime CalendarFacts.

Lemma strptime_inv s d :
  strptime s = Ok d -> valid_datetime d /\ microsecond d = 0 /\ tzinfo d = None.
Proof.
  unfold strptime. destruct (scan_fields s) as [[[[[[y m] dd] hh] mm] ss]|]; [|discriminate].
  destruct (valid_datetimeb _) eqn:V; [|discriminate].
  intros H. injection H as <-. repeat split. exact V.
Qed.

Lemma truncate_whole d :
  microsecond d = 0 -> tzinfo d = None -> truncate_to_seconds d = d.
Proof. destruct d; unfold truncate_to_seconds; simpl; intros -> ->; reflexivity. Qed.

Lemma strptime_strftime_whole d :
  valid_datetime d -> microsecond d = 0 -> tzinfo d = None ->
  strptime (strftime d) = Ok d.
Proof.
  intros V U T. rewrite (strptime_strftime d V), (truncate_whole d U T). reflexivity.
Qed.

Lemma microsecond_of_line d :
  valid_datetime d -> microsecond d = to_microseconds d mod US_PER_SECOND.
Proof.
  rewrite valid_datetime_iff. intros V. unfold to_microseconds, US_PER_SECOND.
  generalize (toordinal d). intros. lia.
Qed.

Lemma datetime_sub_spec d t d' :
  datetime_sub d t = Ok d' ->
  valid_datetime d' /\
  to_microseconds d' = to_microseconds d - t /\
  tzinfo d' = tzinfo d.
Proof.
  unfold datetime_sub, mk_timedelta, result_bind.
  destruct (Z.abs (td_days (- t)) <=? 999999999); [|discriminate].
  intros H. apply datetime_add_spec in H. destruct H as (V & L & T).
  repeat split; [exact V | lia | exact T].
Qed.

End DatetimeFacts.

Module FilterFacts.
Import PyDatetime PyStr Runtime App PassFilterSpec CalendarFacts DatetimeFacts.

Lemma fire_time_spec lead pt nt :
  fire_time lead pt = Ok nt ->
  valid_datetime nt /\
  to_microseconds nt = to_microseconds pt - lead * 60 * US_PER_SECOND /\
  tzinfo nt = tzinfo pt.
Proof.
  unfold fire_time, timedelta_minutes, mk_timedelta, result_bind.
  destruct (Z.abs _ <=? 999999999); [|discriminate].
  apply datetime_sub_spec.
Qed.

Lemma availability_time_spec pt av :
  availability_time pt = Ok av ->
  valid_datetime av /\
  to_microseconds av = to_microseconds pt + 6 * 3600 * US_PER_SECOND /\
  tzinfo av = tzinfo pt.
Proof.
  unfold availability_time, timedelta_hours, mk_timedelta, result_bind.
  destruct (Z.abs _ <=? 999999999); [|discriminate].
  apply datetime_add_spec.
Qed.

(** A time a whole number of seconds away from a whole-second time is
    a whole-second time. *)
Lemma whole_seconds_shift a b k :
  valid_datetime a -> valid_datetime b ->
  to_microseconds b = to_microseconds a + k * US_PER_SECOND ->
  microsecond a = 0 -> microsecond b = 0.
Proof.
  intros Va Vb L Ua.
  rewrite (microsecond_of_line b Vb), L.
  rewrite (microsecond_of_line a Va) in Ua.
  unfold US_PER_SECOND in *. generalize dependent (to_microseconds a). intros. lia.
Qed.

Lemma estimate_data_availability_eq pts pt :
  strptime pts = Ok pt ->
  estimate_data_availability pts =
  result_bind (availability_time pt) (fun t => Ok (strftime t)).
Proof.
  intros H. unfold estimate_data_availability, availability_time. rewrite H.
  cbn [result_bind]. destruct (timedelta_hours 6); reflexivity.
Qed.

Lemma schedule_notification_run nt uid msg p :
  valid_datetime nt -> microsecond nt = 0 -> tzinfo nt = None ->
  schedule_notification (strftime nt) uid msg p =
  (Ok tt, set_jobs (job_set p ++ [mk_job (next_job_id p) nt 3600 (uid, msg) Pending])
                   (S (next_job_id p)) p).
Proof.
  intros V U T. unfold schedule_notification, bind, lift, ret, Scheduler.add_job.
  rewrite (strptime_strftime_whole nt V U T). reflexivity.
Qed.

Section Loop.
Variables (user_id : string) (lead : Z) (now : datetime).

Lemma with_jobs_nil p : with_jobs [] p = p.
Proof.
  destruct p. unfold with_jobs, set_jobs. cbn. rewrite app_nil_r, Nat.add_0_r.
  reflexivity.
Qed.

Lemma with_jobs_app js1 js2 p :
  with_jobs js2 (with_jobs js1 p) = with_jobs (js1 ++ js2) p.
Proof.
  unfold with_jobs, set_jobs. cbn. rewrite <- app_assoc, List.length_app.
  f_equal. lia.
Qed.

Lemma pass_body_run s a ev p r p' :
  pass_body user_id lead now (s, a) ev p = (r, p') ->
  (r = Ok (s, a) /\ p' = p /\ dropped lead now ev) \/
  (exists sn da j,
     r = Ok (s ++ [sn], a ++ [da]) /\ p' = with_jobs [j] p /\
     emitted user_id lead now ev sn da j /\ job_id j = next_job_id p) \/
  (exists e, r = Raise e /\ (p' = p \/ exists j, p' = with_jobs [j] p)).
Proof.
  destruct ev as [name pts]. unfold pass_body.
  destruct (interesting name) eqn:I.
  2:{ intros H. injection H as <- <-. left. repeat split. left. exact I. }
  unfold bind at 1. unfold lift at 1.
  destruct (strptime pts) as [pt|e] eqn:P.
  2:{ intros H. injection H as <- <-. right. right. exists e. split; [reflexivity|now left]. }
  destruct (strptime_inv _ _ P) as (Vpt & Upt & Tpt).
  unfold bind at 1. unfold lift at 1.
  destruct (timedelta_minutes lead) as [td|e] eqn:TD.
  2:{ intros H. injection H as <- <-. right. right. exists e. split; [reflexivity|now left]. }
  unfold bind at 1. unfold lift at 1.
  destruct (datetime_sub pt td) as [nt|e] eqn:SUB.
  2:{ intros H. injection H as <- <-. right. right. exists e. split; [reflexivity|now left]. }
  assert (F : fire_time lead pt = Ok nt).
  { unfold fire_time. rewrite TD. exact SUB. }
  destruct (fire_time_spec _ _ _ F) as (Vnt & Lnt & Tnt).
  assert (Unt : microsecond nt = 0).
  { apply (whole_seconds_shift pt nt (- (lead * 60)) Vpt Vnt); [lia | exact Upt]. }
  unfold bind at 1. unfold lift at 1.
  destruct (datetime_gt nt now) as [[|]|e] eqn:GT.
  3:{ intros H. injection H as <- <-. right. right. exists e. split; [reflexivity|now left]. }
  2:{ intros H. injection H as <- <-. left. repeat split. right. split; [exact I|].
      exists pt, nt. auto. }
  unfold bind at 1.
  rewrite schedule_notification_run by (try assumption; congruence).
  unfold bind at 1. unfold lift at 1.
  rewrite (estimate_data_availability_eq _ _ P).
  destruct (availability_time pt) as [av|e] eqn:AV; cbn [result_bind].
  2:{ intros H. injection H as <- <-. right. right. exists e. split; [reflexivity|].
      right. eexists. unfold with_jobs. cbn [List.length]. rewrite Nat.add_1_r. reflexivity. }
  intros H. injection H as <- <-. right. left.
  eexists _, _, _. split; [reflexivity|]. split.
  { unfold with_jobs. cbn [List.length]. rewrite Nat.add_1_r. reflexivity. }
  split; [|reflexivity].
  split; [exact I|]. exists pt, nt, av. cbn. repeat split; auto.
Qed.

(** The loop leaves the clock, the mail and the map alone, appends one
    job per kept event, and returns the entries of the kept events. *)
Lemma pass_loop_run evs : forall s a p r p',
  foreach (pass_body user_id lead now) evs (s, a) p = (r, p') ->
  exists js, p' = with_jobs js p /\
  match r with
  | Ok (s', a') =>
      exists sns das, filtered user_id lead now evs sns das js /\
                      s' = s ++ sns /\ a' = a ++ das
  | Raise _ => True
  end.
Proof.
  induction evs as [|ev evs IH]; intros s a p r p' H.
  - cbn in H. injection H as <- <-. exists []. split; [now rewrite with_jobs_nil|].
    exists [], []. rewrite !app_nil_r. split; [constructor | split; reflexivity].
  - cbn [foreach] in H. unfold bind in H.
    destruct (pass_body user_id lead now (s, a) ev p) as [r1 p1] eqn:B.
    destruct (pass_body_run _ _ _ _ _ _ B) as
      [(-> & -> & D) | [(sn & da & j & -> & -> & Em & _) | (e & -> & Hp)]].
    + destruct (IH _ _ _ _ _ H) as (js & -> & R). exists js. split; [reflexivity|].
      destruct r as [[s' a']|]; [|exact I].
      destruct R as (sns & das & F & -> & ->). exists sns, das.
      split; [now apply filtered_drop | split; reflexivity].
    + destruct (IH _ _ _ _ _ H) as (js & -> & R). exists (j :: js).
      split; [now rewrite with_jobs_app|].
      destruct r as [[s' a']|]; [|exact I].
      destruct R as (sns & das & F & -> & ->). exists (sn :: sns), (da :: das).
      rewrite <- !app_assoc. split; [now apply filtered_keep | split; reflexivity].
    + injection H as <- <-. destruct Hp as [->|[j ->]].
      * exists []. now rewrite with_jobs_nil.
      * exists [j]. split; [reflexivity | exact I].
Qed.

End Loop.
End FilterFacts.

(** ** The pass oracle *)

Module OracleFacts.
Import PyDatetime PyStr Runtime App PassFilterSpec CalendarFacts DatetimeFacts.

Lemma first_rise_some evs : forall t, first_rise evs = Some t -> is_first_rise evs t.
Proof.
  induction evs as [|[ti ev] evs IH]; intros t H; [discriminate|].
  cbn [first_rise] in H. destruct (ev =? 0) eqn:E.
  - apply Z.eqb_eq in E. subst ev. injection H as ->.
    exists [], evs. split; [reflexivity | constructor].
  - apply Z.eqb_neq in E. destruct (IH t H) as (before & after & -> & F).
    exists ((ti, ev) :: before), after. split; [reflexivity|].
    constructor; [exact E | exact F].
Qed.

Lemma first_rise_none evs : first_rise evs = None -> no_rise evs.
Proof.
  induction evs as [|[ti ev] evs IH]; intros H; [constructor|].
  cbn [first_rise] in H. destruct (ev =? 0) eqn:E; [discriminate|].
  apply Z.eqb_neq in E. constructor; [exact E | exact (IH H)].
Qed.

Lemma is_first_rise_unique evs t :
  is_first_rise evs t -> first_rise evs = Some t.
Proof.
  intros (before & after & -> & F).
  induction before as [|[ti ev] before IH]; cbn [app first_rise].
  - reflexivity.
  - inversion F as [|? ? Hne F']; subst. cbn [snd] in Hne.
    apply Z.eqb_neq in Hne. rewrite Hne. exact (IH F').
Qed.

(** When the events come in the order of time, as the provider gives
    them, the first rise is the earliest one. *)
Lemma first_rise_is_earliest evs t :
  (forall before e after e',
     evs = before ++ e :: after -> In e' after ->
     to_microseconds (fst e) <= to_microseconds (fst e')) ->
  is_first_rise evs t ->
  forall t', In (t', 0) evs -> to_microseconds t <= to_microseconds t'.
Proof.
  intros Sorted (before & after & E & F) t' Hin. subst evs.
  apply in_app_or in Hin. destruct Hin as [Hin | [Heq | Hin]].
  - rewrite Forall_forall in F. specialize (F _ Hin). cbn in F. now contradiction F.
  - injection Heq as <-. lia.
  - exact (Sorted before (t, 0) after (t', 0) eq_refl Hin).
Qed.

Lemma contribution_cases name evs :
  (no_rise evs /\ contribution name evs = []) \/
  (exists t, is_first_rise evs t /\ contribution name evs = [(name, strftime t)]).
Proof.
  unfold contribution. destruct (first_rise evs) as [t|] eqn:E.
  - right. exists t. split; [now apply first_rise_some | reflexivity].
  - left. split; [now apply first_rise_none | reflexivity].
Qed.

Lemma contribution_length name evs : (List.length (contribution name evs) <= 1)%nat.
Proof. unfold contribution. destruct (first_rise evs); cbn; lia. Qed.

Lemma set_ticks_set_ticks a b p : set_ticks a (set_ticks b p) = set_ticks a p.
Proof. reflexivity. Qed.

Lemma set_ticks_same p : set_ticks (ticks p) p = p.
Proof. destruct p; reflexivity. Qed.

Section Oracle.
Variables (E : Env.t) (latitude longitude : float).

Lemma next_pass_body_run acc sat p r p' :
  next_pass_body E latitude longitude acc sat p = (r, p') ->
  p' = set_ticks (S (ticks p)) p /\
  match r with
  | Ok acc' => exists c, queried E latitude longitude sat c /\ acc' = acc ++ c
  | Raise _ => True
  end.
Proof.
  unfold next_pass_body, bind, lift, ts_now, ret.
  change (timedelta_days 2) with (Ok (A:=timedelta) (2 * US_PER_DAY)).
  cbv iota beta.
  destruct (datetime_add (aware (Env.clock E (ticks p))) (2 * US_PER_DAY))
    as [t1|e] eqn:A.
  2:{ intros H. injection H as <- <-. split; [reflexivity | exact I]. }
  set (evs := Env.find_events E sat latitude longitude (aware (Env.clock E (ticks p))) t1).
  intros H.
  assert (H' : (Ok (acc ++ contribution (Env.name sat) evs), set_ticks (S (ticks p)) p)
               = (r, p')).
  { rewrite <- H. unfold contribution. destruct (first_rise evs).
    - reflexivity.
    - now rewrite app_nil_r. }
  injection H' as <- <-. split; [reflexivity|].
  exists (contribution (Env.name sat) evs). split; [|reflexivity].
  exists (ticks p), t1. split; [exact A|]. cbv zeta. fold evs.
  split; [reflexivity | apply contribution_cases].
Qed.

Lemma next_pass_loop_run sats : forall acc p r p',
  foreach (next_pass_body E latitude longitude) sats acc p = (r, p') ->
  exists k, p' = set_ticks (ticks p + k)%nat p /\
  match r with
  | Ok evs => exists cs, Forall2 (queried E latitude longitude) sats cs /\
                         evs = acc ++ List.concat cs
  | Raise _ => True
  end.
Proof.
  induction sats as [|sat sats IH]; intros acc p r p' H.
  - cbn in H. injection H as <- <-. exists O. split.
    + now rewrite Nat.add_0_r, set_ticks_same.
    + exists []. split; [constructor | now rewrite app_nil_r].
  - cbn [foreach] in H. unfold bind in H.
    destruct (next_pass_body E latitude longitude acc sat p) as [r1 p1] eqn:B.
    destruct (next_pass_body_run _ _ _ _ _ B) as [-> R1].
    destruct r1 as [acc1|e].
    + destruct R1 as (c & Q & ->).
      destruct (IH _ _ _ _ H) as (k & -> & R). exists (S k). split.
      * cbn [ticks set_ticks]. rewrite set_ticks_set_ticks. f_equal. lia.
      * destruct r as [evs|]; [|exact I].
        destruct R as (cs & F & ->). exists (c :: cs). split.
        -- now constructor.
        -- cbn [List.concat]. now rewrite app_assoc.
    + injection H as <- <-. exists 1%nat. split; [|exact I].
      f_equal. lia.
Qed.

Lemma get_next_pass_times_run p r p' :
  get_next_pass_times E latitude longitude p = (r, p') ->
  exists k, p' = set_ticks (ticks p + k)%nat p /\
  match r with
  | Ok evs => exists cs, Forall2 (queried E latitude longitude) (Env.tle_file E) cs /\
                         evs = List.concat cs
  | Raise _ => True
  end.
Proof. apply next_pass_loop_run. Qed.

End Oracle.

(** ** The two-day window exists for every clock of this millennium *)
Lemma toordinal_bounds d :
  valid_datetime d -> year d <= 9998 -> 1 <= toordinal d <= 3651694.
Proof.
  intros V Y.
  pose (b := mk_datetime 9999 1 1 0 0 0 0 None).
  assert (Vb : valid_datetime b) by reflexivity.
  pose proof (toordinal_year_lt d b V Vb ltac:(simpl; lia)) as U.
  change (toordinal b) with 3651695 in U.
  apply valid_datetime_iff in V.
  pose proof (days_before_month_bounds (year d) (month d) ltac:(lia)) as B.
  unfold MINYEAR in V.
  unfold toordinal, ymd2ord, days_before_year in *. cbv zeta in *.
  generalize dependent (days_before_month (year d) (month d)). intros. lia.
Qed.

Lemma two_day_window d :
  valid_datetime d -> year d <= 9998 ->
  exists t1, datetime_add d (2 * US_PER_DAY) = Ok t1.
Proof.
  intros V Y. pose proof (toordinal_bounds d V Y) as B.
  apply valid_datetime_iff in V.
  unfold datetime_add, mk_timedelta, result_bind, td_days.
  set (total := to_microseconds d + 2 * US_PER_DAY).
  assert (D : total / US_PER_DAY = toordinal d + 2).
  { subst total. unfold to_microseconds, US_PER_DAY, US_PER_SECOND.
    generalize dependent (toordinal d). intros. lia. }
  rewrite D.
  replace (Z.abs (toordinal d + 2) <=? 999999999) with true
    by (symmetry; apply Z.leb_le; lia).
  rewrite ?D.
  replace ((0 <? toordinal d + 2) && (toordinal d + 2 <=? MAXORDINAL)) with true.
  2:{ symmetry. apply andb_true_iff. split; [apply Z.ltb_lt | apply Z.leb_le];
      unfold MAXORDINAL; lia. }
  destruct (ord2ymd (toordinal d + 2)) as [[y m] dd]. eexists. reflexivity.
Qed.

Lemma valid_aware d : valid_datetime d -> valid_datetime (aware d).
Proof. exact (fun H => H). Qed.

Lemma get_next_pass_times_total E latitude longitude :
  (forall k, valid_datetime (Env.clock E k) /\ year (Env.clock E k) <= 9998) ->
  forall sats acc p, exists evs p',
    foreach (next_pass_body E latitude longitude) sats acc p = (Ok evs, p').
Proof.
  intros C. induction sats as [|sat sats IH]; intros acc p.
  - eexists _, _. reflexivity.
  - cbn [foreach]. unfold bind at 1.
    destruct (C (ticks p)) as [V Y].
    destruct (two_day_window (aware (Env.clock E (ticks p))) (valid_aware _ V) Y)
      as [t1 A].
    unfold next_pass_body, bind, lift, ts_now, ret.
    change (timedelta_days 2) with (Ok (A:=timedelta) (2 * US_PER_DAY)).
    cbv iota beta. rewrite A.
    destruct (first_rise _); apply IH.
Qed.

End OracleFacts.

(** ** The handler *)

Module HomeFacts.
Import PyDatetime PyStr Runtime App PassFilterSpec.
Import CalendarFacts DatetimeFacts FilterFacts OracleFacts.

Lemma home_get_page E req p : method req = GET -> home E req p = (Ok home_html, p).
Proof. intros H. unfold home. rewrite H. reflexivity. Qed.

(** The handler, one outcome per way through the [try] block. *)
Lemma home_post E req p :
  method req = POST ->
  home E req p =
  match read_form E req with
  | Raise e => (Ok (error_html (StrOf e)), p)
  | Ok (latitude, longitude, lead, user_id) =>
      let p1 := set_outbox (outbox p ++ [confirmation_mail user_id]) p in
      match get_next_pass_times E latitude longitude p1 with
      | (Raise e, p2) => (Ok (error_html (StrOf e)), p2)
      | (Ok evs, p2) =>
          match pass_filter user_id lead (naive (Env.clock E (ticks p2))) evs
                            (set_ticks (S (ticks p2)) p2) with
          | (Raise e, p4) => (Ok (error_html (StrOf e)), p4)
          | (Ok ([], _), p4) => (Ok (error_html (Text no_passes_message)), p4)
          | (Ok (sn :: sns, das), p4) =>
              (Ok (confirmation_html (sn :: sns) (sn :: sns) das user_id),
               set_map_saves (map_saves p4 ++ [(latitude, longitude)]) p4)
          end
      end
  end.
Proof.
  intros Hm. unfold home. rewrite Hm.
  unfold try_except, bind at 1, lift at 1.
  destruct (read_form E req) as [[[[latitude longitude] lead] user_id]|e];
    [|reflexivity].
  unfold bind at 1, send_confirmation_email, send_mail, modify. cbv zeta.
  unfold bind at 1.
  destruct (get_next_pass_times E latitude longitude _) as [[evs|e] p2];
    [|reflexivity].
  unfold bind at 1, utcnow.
  unfold bind at 1.
  destruct (pass_filter _ _ _ _ _) as [[[sns das]|e] p4]; [|reflexivity].
  destruct sns; reflexivity.
Qed.

(** A confirmation page comes from a run of the loop that returned
    its two lists. *)
Lemma home_confirmation_inv E req p np sns das user_id p' :
  home E req p = (Ok (confirmation_html np sns das user_id), p') ->
  exists latitude longitude lead evs p2 p4,
    read_form E req = Ok (latitude, longitude, lead, user_id) /\
    get_next_pass_times E latitude longitude
      (set_outbox (outbox p ++ [confirmation_mail user_id]) p) = (Ok evs, p2) /\
    pass_filter user_id lead (naive (Env.clock E (ticks p2))) evs
      (set_ticks (S (ticks p2)) p2) = (Ok (sns, das), p4) /\
    np = sns /\
    p' = set_map_saves (map_saves p4 ++ [(latitude, longitude)]) p4.
Proof.
  destruct (method req) eqn:Hm.
  { rewrite (home_get_page E req p Hm). discriminate. }
  rewrite (home_post E req p Hm).
  destruct (read_form E req) as [[[[latitude longitude] lead] uid]|e];
    [|discriminate].
  cbv zeta.
  destruct (get_next_pass_times E latitude longitude _) as [[evs|e] p2] eqn:G;
    [|discriminate].
  destruct (pass_filter uid lead _ evs _) as [[[[|sn sns'] das']|e] p4] eqn:PF;
    try discriminate.
  intros H. injection H as <- <- <- <- <-.
  exists latitude, longitude, lead, evs, p2, p4. auto.
Qed.

Section Loop.
Variables (user_id : string) (lead : Z) (now : datetime).

Lemma fire_time_inv pt nt :
  fire_time lead pt = Ok nt ->
  exists td, timedelta_minutes lead = Ok td /\ datetime_sub pt td = Ok nt.
Proof.
  unfold fire_time. destruct (timedelta_minutes lead) as [td|]; [|discriminate].
  intros H. exists td. split; [reflexivity | exact H].
Qed.

Lemma pass_body_dropped acc ev p :
  dropped lead now ev -> pass_body user_id lead now acc ev p = (Ok acc, p).
Proof.
  destruct acc as [s a]. destruct ev as [name pts]. unfold dropped, pass_body.
  cbn [fst snd]. intros [I | (I & pt & nt & P & F & G)]; rewrite I; [reflexivity|].
  destruct (fire_time_inv _ _ F) as (td & TD & SUB).
  unfold bind, lift. rewrite P, TD, SUB, G. reflexivity.
Qed.

Lemma pass_loop_dropped evs : forall acc p,
  Forall (dropped lead now) evs ->
  foreach (pass_body user_id lead now) evs acc p = (Ok acc, p).
Proof.
  induction evs as [|ev evs IH]; intros acc p F; [reflexivity|].
  inversion F as [|? ? D F']; subst.
  cbn [foreach]. unfold bind. rewrite (pass_body_dropped acc ev p D). now apply IH.
Qed.

Lemma filtered_length evs sns das js :
  filtered user_id lead now evs sns das js ->
  List.length sns = List.length js /\ List.length das = List.length js /\
  (List.length js <= List.length evs)%nat.
Proof. induction 1; cbn [List.length]; lia. Qed.

(** What [emitted] says about the three traces of a kept event, on the
    time line. *)
Lemma emitted_times ev sn da j :
  emitted user_id lead now ev sn da j ->
  exists rise fire available,
    strptime (snd ev) = Ok rise /\
    strptime (snd sn) = Ok fire /\
    strptime (snd da) = Ok available /\
    fireAtUtc j = fire /\
    fire_time lead rise = Ok fire /\
    availability_time rise = Ok available /\
    datetime_gt fire now = Ok true /\
    valid_datetime fire /\
    to_microseconds fire = to_microseconds rise - lead * 60 * US_PER_SECOND /\
    to_microseconds available = to_microseconds rise + 6 * 3600 * US_PER_SECOND.
Proof.
  intros (I & pt & nt & av & P & F & G & A & -> & -> & J & _).
  destruct (strptime_inv _ _ P) as (Vpt & Upt & Tpt).
  destruct (fire_time_spec _ _ _ F) as (Vnt & Lnt & Tnt).
  destruct (availability_time_spec _ _ A) as (Vav & Lav & Tav).
  assert (Unt : microsecond nt = 0).
  { apply (whole_seconds_shift pt nt (- (lead * 60)) Vpt Vnt); [lia | exact Upt]. }
  assert (Uav : microsecond av = 0).
  { apply (whole_seconds_shift pt av (6 * 3600) Vpt Vav); [lia | exact Upt]. }
  exists pt, nt, av. cbn [snd].
  rewrite (strptime_strftime_whole nt Vnt Unt) by congruence.
  rewrite (strptime_strftime_whole av Vav Uav) by congruence.
  repeat split; auto.
Qed.

Lemma datetime_gt_true_line a b :
  valid_datetime a -> valid_datetime b ->
  datetime_gt a b = Ok true -> to_microseconds b < to_microseconds a.
Proof.
  intros Va Vb H. unfold datetime_gt in H.
  destruct (same_kind a b) eqn:K; [|discriminate].
  pose proof (datetime_gt_spec a b Va Vb K) as S. unfold datetime_gt in S.
  rewrite K in S. rewrite S in H. injection H as H. now apply Z.ltb_lt.
Qed.

Lemma datetime_gt_false_line a b :
  valid_datetime a -> valid_datetime b ->
  datetime_gt a b = Ok false -> to_microseconds a <= to_microseconds b.
Proof.
  intros Va Vb H. unfold datetime_gt in H.
  destruct (same_kind a b) eqn:K; [|discriminate].
  pose proof (datetime_gt_spec a b Va Vb K) as S. unfold datetime_gt in S.
  rewrite K in S. rewrite S in H. injection H as H. apply Z.ltb_ge in H. lia.
Qed.

End Loop.
End HomeFacts.

(** A run of the loop that returned its lists, turned into the
    relation [filtered] between the events and what was left behind. *)
Tactic Notation "filter_inversion" hyp(H) "as" ident(js) ident(F) :=
  unfold App.pass_filter in H;
  let sns' := fresh "sns" in
  let das' := fresh "das" in
  let E1 := fresh "E" in
  let E2 := fresh "E" in
  destruct (FilterFacts.pass_loop_run _ _ _ _ _ _ _ _ _ H)
    as (js & -> & sns' & das' & F & E1 & E2);
  cbn [app] in E1, E2; subst sns' das'.

(** ** The scheduler *)

Module SchedulerFacts.
Import PyDatetime Runtime Scheduler App.

Lemma evaluate_terminal now j : state j <> Pending -> evaluate now j = (j, false).
Proof. unfold evaluate. destruct (state j); congruence. Qed.

Lemma evaluate_early now j :
  state j = Pending -> lateness now j < 0 -> evaluate now j = (j, false).
Proof.
  unfold evaluate, lateness. intros -> H.
  apply Z.ltb_lt in H. now rewrite H.
Qed.

Lemma evaluate_in_grace now j :
  state j = Pending ->
  0 <= lateness now j <= graceWindowSeconds j * US_PER_SECOND ->
  evaluate now j = (mark Fired j, true).
Proof.
  unfold evaluate, lateness. intros -> [H1 H2].
  apply Z.ltb_ge in H1. apply Z.leb_le in H2. now rewrite H1, H2.
Qed.

Lemma evaluate_past_grace now j :
  state j = Pending ->
  graceWindowSeconds j * US_PER_SECOND < lateness now j ->
  0 <= graceWindowSeconds j ->
  evaluate now j = (mark Expired j, false).
Proof.
  unfold evaluate, lateness. intros -> H G.
  assert (H1 : (datetime_diff now (fireAtUtc j) <? 0) = false).
  { apply Z.ltb_ge. unfold US_PER_SECOND in H. lia. }
  assert (H2 : (datetime_diff now (fireAtUtc j) <=? graceWindowSeconds j * US_PER_SECOND) = false).
  { apply Z.leb_gt. exact H. }
  now rewrite H1, H2.
Qed.

Lemma evaluate_payload now j : payload (fst (evaluate now j)) = payload j.
Proof.
  unfold evaluate. destruct (state j); try reflexivity.
  destruct (_ <? 0); [reflexivity|]. destruct (_ <=? _); reflexivity.
Qed.

Lemma life_terminal nows : forall j, state j <> Pending -> life nows j = (j, O).
Proof.
  induction nows as [|now nows IH]; intros j H; [reflexivity|].
  cbn [life]. rewrite (evaluate_terminal now j H), (IH j H). reflexivity.
Qed.

Lemma life_early early rest : forall j,
  state j = Pending ->
  Forall (fun e => lateness e j < 0) early ->
  life (early ++ rest) j = life rest j.
Proof.
  induction early as [|e early IH]; intros j P F; [reflexivity|].
  inversion F as [|? ? He F']; subst.
  cbn [app life]. rewrite (evaluate_early e j P He).
  rewrite (IH j P F'). destruct (life rest j). reflexivity.
Qed.

(** ** One round of the dispatch loop, in closed form *)

Lemma dispatch_calls l : forall q,
  foreach (fun (_ : unit) (r : SchedulerJob * bool) =>
             if snd r then send_notification (fst (payload (fst r))) (snd (payload (fst r)))
             else ret tt) l tt q =
  (Ok tt, set_outbox (outbox q ++ map (fun r => mail_of_job (fst r))
                                      (filter (fun r => snd r) l)) q).
Proof.
  induction l as [|[j b] l IH]; intros q.
  - cbn. rewrite app_nil_r. destruct q; reflexivity.
  - cbn [foreach filter snd fst]. unfold bind. destruct b.
    + unfold send_notification, send_mail, modify. rewrite IH.
      f_equal. unfold set_outbox. cbn. rewrite <- app_assoc. reflexivity.
    + unfold ret. rewrite IH. reflexivity.
Qed.

Lemma dispatch_run now p :
  dispatch send_notification now p =
  (Ok tt,
   set_outbox (outbox p ++ map mail_of_job (filter (fires now) (job_set p)))
     (set_jobs (map (fun j => fst (evaluate now j)) (job_set p)) (next_job_id p) p)).
Proof.
  unfold dispatch. cbv zeta. rewrite dispatch_calls. f_equal.
  unfold set_outbox, set_jobs. cbn. f_equal.
  - now rewrite map_map.
  - f_equal. induction (job_set p) as [|j js IH]; [reflexivity|].
    cbn [map filter]. unfold fires at 1. destruct (snd (evaluate now j)) eqn:F.
    + cbn [map]. rewrite IH. f_equal. unfold mail_of_job.
      now rewrite evaluate_payload.
    + exact IH.
Qed.

Lemma run_scheduler_ok nows : forall p, exists p', run_scheduler nows p = (Ok tt, p').
Proof.
  induction nows as [|now nows IH]; intros p.
  - eexists. reflexivity.
  - unfold run_scheduler. cbn [dispatch_all]. unfold bind.
    rewrite dispatch_run. apply IH.
Qed.

(** Every job of the set lives its own [life]: rounds do not mix jobs. *)
Lemma run_scheduler_jobs nows : forall p p',
  run_scheduler nows p = (Ok tt, p') ->
  job_set p' = map (fun j => fst (life nows j)) (job_set p) /\
  List.length (outbox p') =
    (List.length (outbox p) + list_sum (map (fun j => snd (life nows j)) (job_set p)))%nat /\
  ticks p' = ticks p /\ next_job_id p' = next_job_id p /\ map_saves p' = map_saves p.
Proof.
  induction nows as [|now nows IH]; intros p p' H.
  - cbn in H. injection H as <-. repeat split.
    + cbn [life fst]. now rewrite map_id.
    + cbn [life snd].
      assert (Z0 : forall js : list SchedulerJob,
                 list_sum (map (fun _ => O) js) = O)
        by (induction js; cbn; auto).
      rewrite Z0. lia.
  - unfold run_scheduler in H. cbn [dispatch_all] in H. unfold bind in H.
    rewrite dispatch_run in H. apply IH in H. cbn in H.
    destruct H as (J & O & T & N & S). repeat split; try assumption.
    + rewrite J, map_map. apply map_ext. intros j. cbn [life].
      destruct (evaluate now j) as [j1 f]. cbn [fst].
      destruct (life nows j1). reflexivity.
    + rewrite O, List.length_app, List.length_map, map_map.
      assert (Q : forall js,
                 (List.length (filter (fires now) js) +
                  list_sum (map (fun x => snd (life nows (fst (evaluate now x)))) js))%nat
                 = list_sum (map (fun j => snd (life (now :: nows) j)) js)).
      { clear. induction js as [|j js IHj]; [reflexivity|].
        cbn [filter map].
        change (list_sum (?x :: ?l)) with (x + list_sum l)%nat.
        rewrite <- IHj. cbn [life]. unfold fires at 1.
        destruct (evaluate now j) as [j1 f]. cbn [fst snd].
        destruct (life nows j1) as [j2 n]. cbn [snd].
        destruct f; cbn [List.length]; lia. }
      rewrite <- Q. unfold list_sum. lia.
Qed.

(** A scheduler holding one job sends its mail once per firing. *)
Lemma run_single_job nows : forall j p,
  job_set p = [j] ->
  exists p', run_scheduler nows p = (Ok tt, p') /\
             job_set p' = [fst (life nows j)] /\
             outbox p' = outbox p ++ repeat (mail_of_job j) (snd (life nows j)).
Proof.
  induction nows as [|now nows IH]; intros j p Hj.
  - exists p. cbn. rewrite app_nil_r. auto.
  - unfold run_scheduler. cbn [dispatch_all]. unfold bind. rewrite dispatch_run.
    rewrite Hj. cbn [map filter]. unfold fires.
    cbn [life]. destruct (evaluate now j) as [j1 f] eqn:Ev. cbn [fst snd].
    match goal with |- context [dispatch_all _ nows ?q] =>
      destruct (IH j1 q eq_refl) as (p' & R & J & O) end.
    exists p'. unfold run_scheduler in R. rewrite R.
    destruct (life nows j1) as [j2 n]. cbn [fst snd] in *.
    split; [reflexivity|]. split; [exact J|].
    rewrite O. cbn [outbox set_outbox set_jobs].
    assert (P : mail_of_job j1 = mail_of_job j).
    { unfold mail_of_job. replace j1 with (fst (evaluate now j)) by now rewrite Ev.
      now rewrite evaluate_payload. }
    rewrite P. destruct f; cbn [map repeat Nat.add]; rewrite <- ?app_assoc; reflexivity.
Qed.

End SchedulerFacts.

(* ================================================================= *)
(** * Properties of the pipeline *)

Import PyDatetime PyStr Runtime Scheduler App PassFilterSpec.
Import CalendarFacts StrFacts DatetimeFacts FilterFacts OracleFacts.
Import HomeFacts SchedulerFacts.

Section FilterProperties.
Variables (user_id : string) (lead : Z) (now : datetime).

Lemma filtered_fire_after_now evs sns das js :
  valid_datetime now ->
  filtered user_id lead now evs sns das js ->
  Forall (fun sn => exists fire,
            strptime (snd sn) = Ok fire /\ datetime_gt fire now = Ok true /\
            to_microseconds now < to_microseconds fire) sns /\
  Forall (fun j => datetime_gt (fireAtUtc j) now = Ok true /\
                   to_microseconds now < to_microseconds (fireAtUtc j)) js.
Proof.
  intros Vnow. induction 1 as [|ev evs sns das js D F IH|ev evs sn da j sns das js Em F IH].
  - split; constructor.
  - exact IH.
  - destruct IH as [IH1 IH2].
    destruct (emitted_times _ _ _ _ _ _ _ Em)
      as (rise & fire & av & _ & Psn & _ & J & _ & _ & G & Vf & _).
    pose proof (datetime_gt_true_line fire now Vf Vnow G) as L.
    split; constructor; auto.
    + exists fire. auto.
    + rewrite J. auto.
Qed.

Lemma filtered_availability evs sns das js :
  filtered user_id lead now evs sns das js ->
  Forall2 (fun sn da => exists ev rise available,
             In ev evs /\ fst sn = fst ev /\ fst da = fst ev /\
             strptime (snd ev) = Ok rise /\
             strptime (snd da) = Ok available /\
             availability_time rise = Ok available /\
             to_microseconds available
               = to_microseconds rise + 6 * 3600 * US_PER_SECOND) sns das.
Proof.
  induction 1 as [|ev evs sns das js D F IH|ev evs sn da j sns das js Em F IH].
  - constructor.
  - eapply Forall2_impl; [|exact IH]. cbv beta.
    intros sn da (ev' & rise & av & I & R). exists ev', rise, av.
    split; [now right | exact R].
  - constructor.
    + destruct (emitted_times _ _ _ _ _ _ _ Em)
        as (rise & fire & av & Pev & _ & Pda & _ & _ & A & _ & _ & _ & L).
      destruct Em as (_ & pt0 & nt0 & av0 & _ & _ & _ & _ & -> & -> & _).
      exists ev, rise, av. cbn [fst snd] in *. repeat split; auto. now left.
    + eapply Forall2_impl; [|exact IH]. cbv beta.
      intros sn' da' (ev' & rise & av & I & R). exists ev', rise, av.
      split; [now right | exact R].
Qed.

Lemma filtered_fire_time evs sns das js :
  filtered user_id lead now evs sns das js ->
  Forall (fun sn => exists ev rise fire,
            In ev evs /\ fst sn = fst ev /\
            strptime (snd ev) = Ok rise /\ strptime (snd sn) = Ok fire /\
            to_microseconds fire
              = to_microseconds rise - lead * 60 * US_PER_SECOND) sns.
Proof.
  induction 1 as [|ev evs sns das js D F IH|ev evs sn da j sns das js Em F IH].
  - constructor.
  - eapply Forall_impl; [|exact IH]. cbv beta.
    intros sn (ev' & rise & fire & I & R). exists ev', rise, fire.
    split; [now right | exact R].
  - constructor.
    + destruct (emitted_times _ _ _ _ _ _ _ Em)
        as (rise & fire & av & Pev & Psn & _ & _ & _ & _ & _ & _ & L & _).
      destruct Em as (_ & pt0 & nt0 & av0 & _ & _ & _ & _ & -> & _).
      exists ev, rise, fire. cbn [fst snd] in *. repeat split; auto. now left.
    + eapply Forall_impl; [|exact IH]. cbv beta.
      intros sn' (ev' & rise & fire & I & R). exists ev', rise, fire.
      split; [now right | exact R].
Qed.

End FilterProperties.

(** C1. The pass filter never emits a notification that is already
    due: every entry of [scheduled_notifications], and every job handed
    to the scheduler, has a fire time strictly after the reference time
    [now]; an event of interest whose fire time [rise - lead] is at or
    before [now] leaves no entry and no job; the filter yields no more
    notifications than there are events. *)
Theorem pass_filter_fires_after_reference_time
    (user_id : string) (lead : Z) (now : datetime)
    (evs : list (string * string)) (p p' : process)
    (sns das : list (string * string)) :
  valid_datetime now ->
  pass_filter user_id lead now evs p = (Ok (sns, das), p') ->
  Forall (fun sn => exists fire,
            strptime (snd sn) = Ok fire /\ datetime_gt fire now = Ok true /\
            to_microseconds now < to_microseconds fire) sns /\
  (exists js, p' = with_jobs js p /\ List.length js = List.length sns /\
     Forall (fun j => datetime_gt (fireAtUtc j) now = Ok true /\
                      to_microseconds now < to_microseconds (fireAtUtc j)) js) /\
  (forall ev rise fire,
     strptime (snd ev) = Ok rise -> fire_time lead rise = Ok fire ->
     to_microseconds fire <= to_microseconds now ->
     ~ In (fst ev, strftime fire) sns) /\
  (tzinfo now = None ->
   forall ev rise fire acc q,
     strptime (snd ev) = Ok rise -> fire_time lead rise = Ok fire ->
     to_microseconds fire <= to_microseconds now ->
     pass_body user_id lead now acc ev q = (Ok acc, q)) /\
  (List.length sns <= List.length evs)%nat.
Proof.
  intros Vnow H. filter_inversion H as js F.
  destruct (filtered_fire_after_now _ _ _ _ _ _ _ Vnow F) as [F1 F2].
  destruct (filtered_length _ _ _ _ _ _ _ F) as (L1 & L2 & L3).
  assert (W : forall s rise fire,
            strptime s = Ok rise -> fire_time lead rise = Ok fire ->
            valid_datetime fire /\ strptime (strftime fire) = Ok fire /\
            tzinfo fire = None).
  { intros s rise fire P Ft.
    destruct (strptime_inv _ _ P) as (Vr & Ur & Tr).
    destruct (fire_time_spec _ _ _ Ft) as (Vf & Lf & Tf).
    assert (Uf : microsecond fire = 0).
    { apply (whole_seconds_shift rise fire (- (lead * 60)) Vr Vf); [lia | exact Ur]. }
    repeat split; [exact Vf | | congruence].
    apply strptime_strftime_whole; [exact Vf | exact Uf | congruence]. }
  split; [exact F1|]. split.
  { exists js. repeat split; [symmetry; exact L1 | exact F2]. }
  split.
  { intros ev rise fire P Ft Le Hin.
    destruct (W _ _ _ P Ft) as (Vf & RT & _).
    rewrite Forall_forall in F1. destruct (F1 _ Hin) as (fire' & P' & _ & Lt).
    cbn [snd] in P'. rewrite RT in P'. injection P' as <-. lia. }
  split; [|lia].
  intros Tnow ev rise fire acc q P Ft Le.
  destruct (W _ _ _ P Ft) as (Vf & _ & Tf).
  destruct (interesting (fst ev)) eqn:I.
  - apply pass_body_dropped. right. split; [exact I|]. exists rise, fire.
    repeat split; [exact P | exact Ft |].
    rewrite (datetime_gt_spec fire now Vf Vnow).
    + f_equal. apply Z.ltb_ge. exact Le.
    + unfold same_kind. now rewrite Tf, Tnow.
  - apply pass_body_dropped. left. exact I.
Qed.

(** C2. For every notification the pipeline produces, the entry of
    [data_availabilities] that goes with it is the rise time of its
    pass event plus exactly six hours (and that is what
    [estimate_data_availability] returns on any rise time). *)
Theorem data_available_six_hours_after_rise
    (user_id : string) (lead : Z) (now : datetime)
    (evs : list (string * string)) (p p' : process)
    (sns das : list (string * string)) :
  pass_filter user_id lead now evs p = (Ok (sns, das), p') ->
  Forall2 (fun sn da => exists ev rise available,
             In ev evs /\ fst sn = fst ev /\ fst da = fst ev /\
             strptime (snd ev) = Ok rise /\
             strptime (snd da) = Ok available /\
             availability_time rise = Ok available /\
             to_microseconds available
               = to_microseconds rise + 6 * 3600 * US_PER_SECOND) sns das /\
  (forall pass_time_str rise s,
     strptime pass_time_str = Ok rise ->
     estimate_data_availability pass_time_str = Ok s ->
     exists available,
       strptime s = Ok available /\
       to_microseconds available = to_microseconds rise + 6 * 3600 * US_PER_SECOND).
Proof.
  intros H. filter_inversion H as js F.
  split; [exact (filtered_availability _ _ _ _ _ _ _ F)|].
  intros pts rise s P Es. rewrite (estimate_data_availability_eq _ _ P) in Es.
  destruct (availability_time rise) as [av|] eqn:A; [|discriminate].
  cbn in Es. injection Es as <-.
  destruct (strptime_inv _ _ P) as (Vr & Ur & Tr).
  destruct (availability_time_spec _ _ A) as (Va & La & Ta).
  exists av. split; [|exact La].
  apply strptime_strftime_whole; [exact Va | | congruence].
  apply (whole_seconds_shift rise av (6 * 3600) Vr Va); [lia | exact Ur].
Qed.

(** C10. Every time goes through the text form ['%Y-%m-%d %H:%M:%S']
    before it is used: reading back what was written gives the time
    truncated to whole seconds, naive; so the fire time and the
    availability time of a rise [t] are computed from the truncated
    rise, not from [t]. *)
Theorem text_round_trip_truncates_to_seconds (t : datetime) :
  valid_datetime t ->
  strptime (strftime t) = Ok (truncate_to_seconds t) /\
  microsecond (truncate_to_seconds t) = 0 /\
  tzinfo (truncate_to_seconds t) = None /\
  to_microseconds (truncate_to_seconds t) = to_microseconds t - microsecond t /\
  to_microseconds (truncate_to_seconds t)
    = to_microseconds t / US_PER_SECOND * US_PER_SECOND /\
  forall user_id lead now satellite_name p p' sns das,
    pass_filter user_id lead now [(satellite_name, strftime t)] p
      = (Ok (sns, das), p') ->
    Forall (fun sn => exists fire,
              strptime (snd sn) = Ok fire /\
              to_microseconds fire
                = to_microseconds (truncate_to_seconds t)
                  - lead * 60 * US_PER_SECOND) sns /\
    Forall (fun da => exists available,
              strptime (snd da) = Ok available /\
              to_microseconds available
                = to_microseconds (truncate_to_seconds t)
                  + 6 * 3600 * US_PER_SECOND) das.
Proof.
  intros V. pose proof (strptime_strftime t V) as RT.
  assert (L : to_microseconds (truncate_to_seconds t) = to_microseconds t - microsecond t).
  { unfold to_microseconds, toordinal, truncate_to_seconds.
    cbn [year month day hour minute second microsecond]. lia. }
  split; [exact RT|]. split; [reflexivity|]. split; [reflexivity|].
  split; [exact L|]. split.
  { rewrite L. rewrite (microsecond_of_line t V). unfold US_PER_SECOND.
    generalize (to_microseconds t). intros. lia. }
  intros user_id lead now name p p' sns das H. filter_inversion H as js F.
  pose proof (filtered_fire_time _ _ _ _ _ _ _ F) as F1.
  pose proof (filtered_availability _ _ _ _ _ _ _ F) as F2.
  clear H F. split.
  - eapply Forall_impl; [|exact F1]. cbv beta.
    intros sn (ev & rise & fire & [<-|[]] & _ & Pev & Psn & Lf).
    cbn [snd] in Pev. rewrite RT in Pev. injection Pev as <-.
    exists fire. auto.
  - clear F1. induction F2 as [|sn da sns das R F2 IH]; [constructor|].
    constructor; [|exact IH].
    destruct R as (ev & rise & av & [<-|[]] & _ & _ & Pev & Pda & _ & La).
    cbn [snd] in Pev. rewrite RT in Pev. injection Pev as <-.
    exists av. auto.
Qed.

Lemma app_one_neq {A} (l : list A) (x : A) : l ++ [x] <> l.
Proof.
  intros H. apply (f_equal (@List.length A)) in H.
  rewrite List.length_app in H. cbn in H. lia.
Qed.

(** Every request is answered, and each answer tells what the request
    did to the process. *)
Lemma home_outcome E req p :
  exists resp p' js,
    home E req p = (Ok resp, p') /\
    job_set p' = job_set p ++ js /\
    match resp with
    | confirmation_html np sns das uid =>
        np = sns /\ sns <> [] /\
        List.length js = List.length sns /\ List.length das = List.length sns /\
        exists latitude longitude lead,
          read_form E req = Ok (latitude, longitude, lead, uid) /\
          map_saves p' = map_saves p ++ [(latitude, longitude)]
    | error_html (Text m) =>
        m = no_passes_message /\ js = [] /\ map_saves p' = map_saves p /\
        next_job_id p' = next_job_id p
    | error_html (StrOf e) => map_saves p' = map_saves p
    | home_html => p' = p
    end.
Proof.
  destruct (method req) eqn:Hm.
  { rewrite (home_get_page E req p Hm). exists home_html, p, []. rewrite app_nil_r. auto. }
  rewrite (home_post E req p Hm).
  destruct (read_form E req) as [[[[latitude longitude] lead] user_id]|e] eqn:RF.
  2:{ exists (error_html (StrOf e)), p, []. rewrite app_nil_r. auto. }
  cbv zeta.
  set (p1 := set_outbox (outbox p ++ [confirmation_mail user_id]) p).
  destruct (get_next_pass_times E latitude longitude p1) as [r2 p2] eqn:G.
  destruct (get_next_pass_times_run _ _ _ _ _ _ G) as (k & -> & _).
  destruct r2 as [evs|e].
  2:{ exists (error_html (StrOf e)), (set_ticks (ticks p1 + k) p1), [].
      rewrite app_nil_r. auto. }
  cbn [ticks set_ticks].
  set (now := naive (Env.clock E (ticks p1 + k))).
  set (p3 := set_ticks (S (ticks p1 + k)) (set_ticks (ticks p1 + k) p1)).
  destruct (pass_filter user_id lead now evs p3) as [r4 p4] eqn:PF.
  unfold pass_filter in PF.
  destruct (pass_loop_run _ _ _ _ _ _ _ _ _ PF) as (js & -> & R).
  destruct r4 as [[sns das]|e].
  2:{ exists (error_html (StrOf e)), (with_jobs js p3), js. auto. }
  destruct R as (sns' & das' & F & E1 & E2). cbn [app] in E1, E2. subst sns' das'.
  destruct (filtered_length _ _ _ _ _ _ _ F) as (L1 & L2 & L3).
  destruct sns as [|sn sns].
  - destruct js; [|discriminate L1].
    exists (error_html (Text no_passes_message)), (with_jobs [] p3), [].
    rewrite with_jobs_nil, app_nil_r. repeat split.
  - eexists _, _, js. split; [reflexivity|]. split; [reflexivity|].
    split; [reflexivity|]. split; [discriminate|]. split; [congruence|].
    split; [congruence|]. exists latitude, longitude, lead. auto.
Qed.


(** C4. The pass oracle goes through the catalogue in file order and,
    for each satellite, looks at the events found between a reading of
    the clock and two days later: a satellite with no rise (event 0)
    contributes nothing, any other contributes one entry, its first
    rise; the result is the contributions in catalogue order. *)
Theorem oracle_emits_first_rise_per_satellite
    (E : Env.t) (latitude longitude : float) (p : process) :
  (forall k, valid_datetime (Env.clock E k) /\ year (Env.clock E k) <= 9998) ->
  exists evs p' cs,
    get_next_pass_times E latitude longitude p = (Ok evs, p') /\
    Forall2 (queried E latitude longitude) (Env.tle_file E) cs /\
    evs = List.concat cs /\
    Forall (fun c => (List.length c <= 1)%nat) cs /\
    (List.length evs <= List.length (Env.tle_file E))%nat.
Proof.
  intros C.
  destruct (get_next_pass_times_total E latitude longitude C (Env.tle_file E) [] p)
    as (evs & p' & G).
  destruct (get_next_pass_times_run _ _ _ _ _ _ G) as (k & _ & cs & F & ->).
  exists (List.concat cs), p', cs. split; [exact G|]. split; [exact F|].
  split; [reflexivity|].
  assert (L : Forall (fun c => (List.length c <= 1)%nat) cs).
  { clear G. induction F as [|sat c sats cs Q F IH]; constructor; [|exact IH].
    destruct Q as (k' & t1 & _ & -> & _). apply contribution_length. }
  split; [exact L|].
  clear G. induction F as [|sat c sats cs Q F IH]; [cbn; lia|].
  inversion L as [|? ? Lc Lcs]; subst. cbn [List.concat List.length].
  rewrite List.length_app. specialize (IH Lcs). lia.
Qed.

(** C6, as the handler has it.  A request whose latitude, longitude or
    lead time is missing or cannot be converted ([float()], [int()]) is
    answered with the error page and leaves the process as it was: no
    mail, no job, no map. *)
Theorem malformed_input_is_rejected_before_scheduling
    (E : Env.t) (req : request) (p : process) :
  method req = POST ->
  (exists e, result_bind (form_get (form req) "latitude")
                         (convert (Env.py_float E)) = Raise e) \/
  (exists e, result_bind (form_get (form req) "longitude")
                         (convert (Env.py_float E)) = Raise e) \/
  (exists e, result_bind (form_get (form req) "notification_time")
                         (convert (Env.py_int E)) = Raise e) ->
  exists e, home E req p = (Ok (error_html (StrOf e)), p).
Proof.
  intros Hm Bad. rewrite (home_post E req p Hm). unfold read_form.
  destruct (result_bind (form_get (form req) "latitude") _) as [lat|e1] eqn:E1.
  2:{ exists e1. reflexivity. }
  cbn [result_bind].
  destruct (result_bind (form_get (form req) "longitude") _) as [lon|e2] eqn:E2.
  2:{ exists e2. reflexivity. }
  cbn [result_bind].
  destruct (result_bind (form_get (form req) "notification_time") _) as [nt|e3] eqn:E3.
  2:{ exists e3. reflexivity. }
  destruct Bad as [[e B]|[[e B]|[e B]]]; discriminate.
Qed.

(** C6, as stated, fails: nothing in the handler checks the range of
    the coordinates.  A request at latitude 95 is converted, queried and
    scheduled like any other. *)
Lemma out_of_range_latitude_is_scheduled :
  ~ (forall (E : Env.t) (req : request) (p : process) (latitude : float),
       method req = POST ->
       result_bind (form_get (form req) "latitude") (convert (Env.py_float E))
         = Ok latitude ->
       PrimFloat.ltb latitude (-90)%float = true \/
       PrimFloat.ltb 90%float latitude = true ->
       exists msg p', home E req p = (Ok (error_html msg), p') /\
                      job_set p' = job_set p).
Proof.
  intros H.
  destruct (H (Sample.env Sample.catalogue)
              (Sample.post "95" "-118" "30" "u@x.org") Sample.idle 95%float
              eq_refl eq_refl (or_intror eq_refl)) as (msg & p' & R & _).
  vm_compute in R. discriminate R.
Qed.

(** C7. When the loop of the handler ends with no scheduled
    notification (as it does when every event is dropped, and so when
    the oracle returns no event at all), the answer is the "no passes"
    page, which is neither the confirmation page nor the page of a
    caught exception, and no job was added to the scheduler. *)
Theorem no_qualifying_passes_is_its_own_outcome
    (E : Env.t) (req : request) (p p2 p4 : process)
    (latitude longitude : float) (lead : Z) (user_id : string)
    (evs das : list (string * string)) :
  method req = POST ->
  read_form E req = Ok (latitude, longitude, lead, user_id) ->
  get_next_pass_times E latitude longitude
    (set_outbox (outbox p ++ [confirmation_mail user_id]) p) = (Ok evs, p2) ->
  pass_filter user_id lead (naive (Env.clock E (ticks p2))) evs
    (set_ticks (S (ticks p2)) p2) = (Ok ([], das), p4) ->
  home E req p = (Ok (error_html (Text no_passes_message)), p4) /\
  job_set p4 = job_set p /\ next_job_id p4 = next_job_id p /\
  map_saves p4 = map_saves p /\
  (forall np sns das' u,
     error_html (Text no_passes_message) <> confirmation_html np sns das' u) /\
  (forall e, error_html (Text no_passes_message) <> error_html (StrOf e)) /\
  (forall q,
     Forall (dropped lead (naive (Env.clock E (ticks p2)))) evs ->
     pass_filter user_id lead (naive (Env.clock E (ticks p2))) evs q
       = (Ok ([], []), q)).
Proof.
  intros Hm RF G PF.
  pose proof (home_post E req p Hm) as HP. rewrite RF in HP. cbv zeta in HP.
  rewrite G, PF in HP.
  destruct (get_next_pass_times_run _ _ _ _ _ _ G) as (k & -> & _).
  filter_inversion PF as js F.
  destruct (filtered_length _ _ _ _ _ _ _ F) as (L1 & _).
  destruct js; [|discriminate L1]. rewrite with_jobs_nil in *.
  split; [exact HP|]. repeat split; try discriminate.
  intros q D. unfold pass_filter. now apply pass_loop_dropped.
Qed.

(** C8, as the handler has it.  The map is written exactly when the
    answer is the confirmation page, and then at least one notification
    was scheduled, one job per notification; on the "no passes" page,
    on the error page and on the form page no map is written. *)
Theorem map_is_rendered_iff_success (E : Env.t) (req : request) (p : process) :
  exists resp p',
    home E req p = (Ok resp, p') /\
    (map_saves p' <> map_saves p <->
     exists np sns das uid, resp = confirmation_html np sns das uid) /\
    match resp with
    | confirmation_html np sns das uid =>
        sns <> [] /\
        (exists js, job_set p' = job_set p ++ js /\
                    List.length js = List.length sns) /\
        exists latitude longitude lead,
          read_form E req = Ok (latitude, longitude, lead, uid) /\
          map_saves p' = map_saves p ++ [(latitude, longitude)]
    | _ => map_saves p' = map_saves p
    end.
Proof.
  destruct (home_outcome E req p) as (resp & p' & js & H & J & R).
  exists resp, p'. split; [exact H|].
  destruct resp as [|[m|e]|np sns das uid].
  - subst p'. split; [|reflexivity].
    split; [intros N; now contradiction N | intros (? & ? & ? & ? & X); discriminate X].
  - destruct R as (_ & _ & S & _). split; [|exact S].
    split; [intros N; now contradiction N | intros (? & ? & ? & ? & X); discriminate X].
  - split; [|exact R].
    split; [intros N; now contradiction N | intros (? & ? & ? & ? & X); discriminate X].
  - destruct R as (_ & Ne & L & _ & lat & lon & lead & RF & S).
    split.
    + split; [intros _; eauto|]. intros _. rewrite S. apply app_one_neq.
    + split; [exact Ne|]. split; [exists js; auto|]. exists lat, lon, lead. auto.
Qed.

(** C8, as stated, fails: a notification can be produced and submitted
    without the map being written.  The handler schedules inside the
    loop and draws the map after it; when a later event raises (here
    the date of its notification leaves the calendar), the job of the
    earlier event is in the scheduler, the answer is the error page and
    no map is written. *)
Lemma submitted_notification_without_map :
  ~ (forall (E : Env.t) (req : request) (p p' : process) (resp : response),
       home E req p = (Ok resp, p') ->
       (map_saves p' <> map_saves p <->
        exists j js, job_set p' = job_set p ++ j :: js)).
Proof.
  intros H.
  assert (R : home (Sample.env MoreSample.late_catalogue) MoreSample.late_request
                Sample.idle
              = (Ok (error_html (StrOf OverflowError)), MoreSample.late_after_first))
    by (vm_compute; reflexivity).
  destruct (H _ _ _ _ _ R) as [_ B].
  apply B; [|reflexivity].
  destruct (job_set MoreSample.late_after_first) as [|j js] eqn:J;
    [discriminate J|].
  exists j, js. reflexivity.
Qed.

Lemma schedule_notification_parsed s T uid msg p :
  strptime s = Ok T ->
  schedule_notification s uid msg p =
  (Ok tt, with_jobs [mk_job (next_job_id p) T 3600 (uid, msg) Pending] p).
Proof.
  intros P. unfold schedule_notification, bind, lift, ret, add_job, with_jobs.
  rewrite P. cbn [List.length]. now rewrite Nat.add_1_r.
Qed.

Lemma life_in_grace t later j :
  state j = Pending ->
  0 <= lateness t j <= graceWindowSeconds j * US_PER_SECOND ->
  life (t :: later) j = (mark Fired j, 1%nat).
Proof.
  intros P G. cbn [life]. rewrite (evaluate_in_grace t j P G).
  rewrite life_terminal by (cbn; discriminate). reflexivity.
Qed.

Lemma life_past_grace t later j :
  state j = Pending -> 0 <= graceWindowSeconds j ->
  graceWindowSeconds j * US_PER_SECOND < lateness t j ->
  life (t :: later) j = (mark Expired j, 0%nat).
Proof.
  intros P G0 G. cbn [life]. rewrite (evaluate_past_grace t j P G G0).
  rewrite life_terminal by (cbn; discriminate). reflexivity.
Qed.

(** C5. A job scheduled by [schedule_notification] for the time [T]
    (grace 3600 s) and first evaluated at or after [T] at the time [t]:
    if [T <= t <= T + 3600 s] it fires, once, however often it is
    evaluated afterwards, and ends [Fired]; if [t > T + 3600 s] it never
    fires and ends [Expired].  The boundary [t = T + 3600 s] fires. *)
Theorem grace_window_decides_firing
    (s user_id message : string) (T t : datetime)
    (early later : list datetime) (p0 : process) :
  strptime s = Ok T ->
  Forall (fun e => to_microseconds e < to_microseconds T) early ->
  let j := mk_job (next_job_id p0) T 3600 (user_id, message) Pending in
  let nows := early ++ t :: later in
  schedule_notification s user_id message p0 = (Ok tt, with_jobs [j] p0) /\
  (to_microseconds T <= to_microseconds t <= to_microseconds T + 3600 * US_PER_SECOND ->
   life nows j = (mark Fired j, 1%nat)) /\
  (to_microseconds T + 3600 * US_PER_SECOND < to_microseconds t ->
   life nows j = (mark Expired j, 0%nat)) /\
  (exists p', run_scheduler nows (with_jobs [j] p0) = (Ok tt, p') /\
     nth_error (job_set p') (List.length (job_set p0)) = Some (fst (life nows j)) /\
     (job_set p0 = [] ->
      outbox p' = outbox p0 ++ repeat (notification_mail user_id message)
                                      (snd (life nows j)))).
Proof.
  intros P Early j nows.
  assert (Pj : state j = Pending) by reflexivity.
  assert (Ej : Forall (fun e => lateness e j < 0) early).
  { eapply Forall_impl; [|exact Early]. cbv beta. intros e He.
    unfold lateness, datetime_diff. cbn [fireAtUtc j]. lia. }
  split; [now apply schedule_notification_parsed|].
  split.
  { intros G. subst nows. rewrite (life_early early _ j Pj Ej).
    apply life_in_grace; [exact Pj|].
    unfold lateness, datetime_diff. cbn [fireAtUtc graceWindowSeconds j]. lia. }
  split.
  { intros G. subst nows. rewrite (life_early early _ j Pj Ej).
    apply life_past_grace; [exact Pj | cbn; lia |].
    unfold lateness, datetime_diff. cbn [fireAtUtc graceWindowSeconds j]. lia. }
  destruct (run_scheduler_ok nows (with_jobs [j] p0)) as [p' R].
  exists p'. split; [exact R|].
  destruct (run_scheduler_jobs _ _ _ R) as (J & _).
  split.
  - rewrite J. cbn [job_set with_jobs set_jobs]. rewrite map_app.
    rewrite nth_error_app2 by (rewrite List.length_map; lia).
    rewrite List.length_map, Nat.sub_diag. reflexivity.
  - intros Empty.
    destruct (run_single_job nows j (with_jobs [j] p0)) as (p'' & R' & _ & O).
    { cbn. now rewrite Empty. }
    rewrite R in R'. injection R' as <-. exact O.
Qed.

(** C9. Scheduling twice with the same arguments adds two jobs, under
    two different identifiers, with the same time and arguments; a round
    of the dispatch loop within the grace window fires both, so two
    identical notifications are sent. *)
Theorem scheduling_twice_makes_two_jobs
    (s user_id message : string) (T : datetime) (p0 : process) :
  strptime s = Ok T ->
  let j1 := mk_job (next_job_id p0) T 3600 (user_id, message) Pending in
  let j2 := mk_job (S (next_job_id p0)) T 3600 (user_id, message) Pending in
  Runtime.bind (schedule_notification s user_id message)
               (fun _ => schedule_notification s user_id message) p0
    = (Ok tt, with_jobs [j1; j2] p0) /\
  job_id j1 <> job_id j2 /\
  forall t,
    to_microseconds T <= to_microseconds t
      <= to_microseconds T + 3600 * US_PER_SECOND ->
    fires t j1 = true /\ fires t j2 = true /\
    exists p',
      run_scheduler [t] (with_jobs [j1; j2] p0) = (Ok tt, p') /\
      outbox p' =
        outbox p0 ++ map mail_of_job (filter (fires t) (job_set p0))
                 ++ [notification_mail user_id message;
                     notification_mail user_id message] /\
      job_set p' =
        map (fun j => fst (evaluate t j)) (job_set p0)
          ++ [mark Fired j1; mark Fired j2].
Proof.
  intros P j1 j2.
  split.
  { unfold bind. rewrite (schedule_notification_parsed s T user_id message p0 P).
    rewrite (schedule_notification_parsed s T user_id message _ P).
    rewrite with_jobs_app. cbn [next_job_id with_jobs set_jobs List.length app].
    subst j1 j2. repeat f_equal. lia. }
  split; [cbn; lia|].
  intros t G.
  assert (F1 : evaluate t j1 = (mark Fired j1, true)).
  { apply evaluate_in_grace; [reflexivity|].
    unfold lateness, datetime_diff. cbn [fireAtUtc graceWindowSeconds j1]. lia. }
  assert (F2 : evaluate t j2 = (mark Fired j2, true)).
  { apply evaluate_in_grace; [reflexivity|].
    unfold lateness, datetime_diff. cbn [fireAtUtc graceWindowSeconds j2]. lia. }
  split; [unfold fires; now rewrite F1|]. split; [unfold fires; now rewrite F2|].
  eexists. split.
  { unfold run_scheduler. cbn [dispatch_all]. unfold bind.
    rewrite dispatch_run. reflexivity. }
  cbn [outbox job_set set_outbox set_jobs with_jobs].
  rewrite filter_app, !map_app. cbn [filter map]. unfold fires at 2 3.
  rewrite F1, F2. cbn [snd fst map]. split; reflexivity.
Qed.

(** ** The properties at work on the sample environment *)

Lemma sample_filter_run :
  pass_filter "u@x.org" 30 Sample.noon Sample.passes Sample.idle
  = (Ok ([Sample.landsat8_entry], [Sample.landsat8_available]),
     with_jobs [Sample.landsat8_job] Sample.idle).
Proof. vm_compute. reflexivity. Qed.

Lemma pass_filter_fires_after_reference_time_witness :
  valid_datetime Sample.noon /\
  Forall (fun sn => exists fire,
            strptime (snd sn) = Ok fire /\
            datetime_gt fire Sample.noon = Ok true /\
            to_microseconds Sample.noon < to_microseconds fire)
         [Sample.landsat8_entry] /\
  ~ In ("LANDSAT 9", "2024-06-01 11:40:00") [Sample.landsat8_entry].
Proof.
  assert (V : valid_datetime Sample.noon) by reflexivity.
  pose proof (pass_filter_fires_after_reference_time
                "u@x.org" 30 Sample.noon Sample.passes Sample.idle _ _ _
                V sample_filter_run) as (F & _ & D & _).
  split; [exact V|]. split; [exact F|].
  apply (D ("LANDSAT 9", "2024-06-01 12:10:00")
           (mk_datetime 2024 6 1 12 10 0 0 None)
           (mk_datetime 2024 6 1 11 40 0 0 None)).
  - reflexivity.
  - reflexivity.
  - vm_compute. discriminate.
Defined.

Lemma data_available_six_hours_after_rise_witness :
  Forall2 (fun sn da => exists ev rise available,
             In ev Sample.passes /\ fst sn = fst ev /\ fst da = fst ev /\
             strptime (snd ev) = Ok rise /\
             strptime (snd da) = Ok available /\
             availability_time rise = Ok available /\
             to_microseconds available
               = to_microseconds rise + 6 * 3600 * US_PER_SECOND)
          [Sample.landsat8_entry] [Sample.landsat8_available].
Proof.
  exact (proj1 (data_available_six_hours_after_rise
                  "u@x.org" 30 Sample.noon Sample.passes Sample.idle _ _ _
                  sample_filter_run)).
Defined.

Lemma text_round_trip_truncates_to_seconds_witness :
  valid_datetime Sample.landsat8_rise /\
  strptime (strftime Sample.landsat8_rise) = Ok (mk_datetime 2024 6 1 22 0 0 0 None) /\
  to_microseconds (truncate_to_seconds Sample.landsat8_rise)
    = to_microseconds Sample.landsat8_rise - 654321.
Proof.
  assert (V : valid_datetime Sample.landsat8_rise) by reflexivity.
  pose proof (text_round_trip_truncates_to_seconds Sample.landsat8_rise V)
    as (R & _ & _ & L & _).
  split; [exact V|]. split; [exact R | exact L].
Defined.

Lemma sample_clock_is_valid catalogue k :
  valid_datetime (Env.clock (Sample.env catalogue) k) /\
  year (Env.clock (Sample.env catalogue) k) <= 9998.
Proof. split; [reflexivity | discriminate]. Qed.

Lemma oracle_emits_first_rise_per_satellite_witness :
  (forall k, valid_datetime (Env.clock (Sample.env Sample.catalogue) k) /\
             year (Env.clock (Sample.env Sample.catalogue) k) <= 9998) /\
  exists evs p' cs,
    get_next_pass_times (Sample.env Sample.catalogue) 34%float (-118)%float Sample.idle
      = (Ok evs, p') /\
    Forall2 (queried (Sample.env Sample.catalogue) 34%float (-118)%float)
            Sample.catalogue cs /\
    evs = List.concat cs /\
    Forall (fun c => (List.length c <= 1)%nat) cs /\
    (List.length evs <= List.length Sample.catalogue)%nat.
Proof.
  split; [exact (sample_clock_is_valid Sample.catalogue)|].
  exact (oracle_emits_first_rise_per_satellite
           (Sample.env Sample.catalogue) 34%float (-118)%float Sample.idle
           (sample_clock_is_valid Sample.catalogue)).
Defined.

(** The oracle answers in catalogue order: here the later rise comes
    first. *)
Example oracle_output_need_not_be_chronological :
  get_next_pass_times (Sample.env [Sample.landsat8; Sample.landsat9])
                      34%float (-118)%float Sample.idle
  = (Ok [ ("LANDSAT 8", "2024-06-01 22:00:00");
          ("LANDSAT 9", "2024-06-01 12:10:00") ],
     set_ticks 2 Sample.idle).
Proof. vm_compute. reflexivity. Qed.

Lemma malformed_input_is_rejected_before_scheduling_witness :
  method (Sample.post "9x" "-118" "30" "u@x.org") = POST /\
  exists e, home (Sample.env Sample.catalogue)
                 (Sample.post "9x" "-118" "30" "u@x.org") Sample.idle
            = (Ok (error_html (StrOf e)), Sample.idle).
Proof.
  split; [reflexivity|].
  apply malformed_input_is_rejected_before_scheduling; [reflexivity|].
  left. exists ValueError. reflexivity.
Defined.

Lemma no_qualifying_passes_is_its_own_outcome_witness :
  home (Sample.env Sample.quiet_catalogue) Sample.request_30 Sample.idle
  = (Ok (error_html (Text no_passes_message)), Sample.quiet_after_filter) /\
  job_set Sample.quiet_after_filter = job_set Sample.idle.
Proof.
  pose proof (no_qualifying_passes_is_its_own_outcome
                (Sample.env Sample.quiet_catalogue) Sample.request_30 Sample.idle
                Sample.quiet_after_oracle Sample.quiet_after_filter
                34%float (-118)%float 30 "u@x.org" Sample.quiet_passes []) as W.
  destruct W as (H & J & _).
  - reflexivity.
  - reflexivity.
  - vm_compute. reflexivity.
  - vm_compute. reflexivity.
  - split; [exact H | exact J].
Defined.

Lemma grace_window_decides_firing_witness :
  strptime "2024-06-01 21:30:00" = Ok Sample.fire_at /\
  life ([Sample.noon; Sample.one_microsecond_early] ++
        Sample.end_of_grace :: [Sample.one_microsecond_late; Sample.next_morning])
       Sample.landsat8_job
  = (mark Fired Sample.landsat8_job, 1%nat) /\
  life ([Sample.noon; Sample.one_microsecond_early] ++
        Sample.one_microsecond_late :: [Sample.next_morning])
       Sample.landsat8_job
  = (mark Expired Sample.landsat8_job, 0%nat).
Proof.
  assert (P : strptime "2024-06-01 21:30:00" = Ok Sample.fire_at) by reflexivity.
  assert (E : Forall (fun e => to_microseconds e < to_microseconds Sample.fire_at)
                     [Sample.noon; Sample.one_microsecond_early]).
  { repeat constructor. }
  split; [exact P|]. split.
  - refine (proj1 (proj2 (grace_window_decides_firing
             "2024-06-01 21:30:00" "u@x.org"
             "LANDSAT 8 will pass over your location at 2024-06-01 22:00:00 UTC"
             Sample.fire_at Sample.end_of_grace _
             [Sample.one_microsecond_late; Sample.next_morning] Sample.idle P E)) _).
    vm_compute. split; discriminate.
  - refine (proj1 (proj2 (proj2 (grace_window_decides_firing
             "2024-06-01 21:30:00" "u@x.org"
             "LANDSAT 8 will pass over your location at 2024-06-01 22:00:00 UTC"
             Sample.fire_at Sample.one_microsecond_late _
             [Sample.next_morning] Sample.idle P E))) _).
    vm_compute. reflexivity.
Defined.

Lemma scheduling_twice_makes_two_jobs_witness :
  strptime "2024-06-01 21:30:00" = Ok Sample.fire_at /\
  exists p',
    run_scheduler [Sample.end_of_grace]
      (snd (Runtime.bind (schedule_notification "2024-06-01 21:30:00" "u@x.org" "hello")
              (fun _ => schedule_notification "2024-06-01 21:30:00" "u@x.org" "hello")
              Sample.idle))
    = (Ok tt, p') /\
    outbox p' = [notification_mail "u@x.org" "hello"; notification_mail "u@x.org" "hello"].
Proof.
  assert (P : strptime "2024-06-01 21:30:00" = Ok Sample.fire_at) by reflexivity.
  split; [exact P|].
  destruct (scheduling_twice_makes_two_jobs
              "2024-06-01 21:30:00" "u@x.org" "hello" Sample.fire_at Sample.idle P)
    as (S2 & _ & F).
  destruct (F Sample.end_of_grace) as (_ & _ & p' & R & O & _).
  { vm_compute. split; discriminate. }
  exists p'. rewrite S2. split; [exact R | exact O].
Defined.

(* ================================================================= *)
(** * More properties of [app.py] *)

Import Routes Bounds.

Module LoopFacts.

Lemma foreach_app {A S} (body : S -> A -> M S) (l1 l2 : list A) :
  forall acc p,
    foreach body (l1 ++ l2) acc p
    = Runtime.bind (foreach body l1 acc) (foreach body l2) p.
Proof.
  induction l1 as [|x l1 IH]; intros acc p.
  - reflexivity.
  - cbn [app foreach]. unfold Runtime.bind in *.
    destruct (body acc x p) as [[acc'|e] p1]; [|reflexivity].
    apply IH.
Qed.

Section Accumulator.
Variables (user_id : string) (lead : Z) (now : datetime).

(** The body of the loop only appends to the two lists. *)
Lemma pass_body_acc s a ev p :
  pass_body user_id lead now (s, a) ev p =
  match pass_body user_id lead now ([], []) ev p with
  | (Ok (sns, das), p') => (Ok (s ++ sns, a ++ das), p')
  | (Raise e, p') => (Raise e, p')
  end.
Proof.
  destruct ev as [name pts]. unfold pass_body.
  destruct (interesting name); [|unfold ret; now rewrite !app_nil_r].
  unfold Runtime.bind, lift, ret, schedule_notification, add_job.
  repeat match goal with
         | |- context [match ?x with _ => _ end] =>
             lazymatch x with
             | context [match _ with _ => _ end] => fail
             | _ => destruct x
             end
         end;
    rewrite ?app_nil_r; reflexivity.
Qed.

Lemma pass_loop_acc evs : forall s a p,
  foreach (pass_body user_id lead now) evs (s, a) p =
  match foreach (pass_body user_id lead now) evs ([], []) p with
  | (Ok (sns, das), p') => (Ok (s ++ sns, a ++ das), p')
  | (Raise e, p') => (Raise e, p')
  end.
Proof.
  induction evs as [|ev evs IH]; intros s a p.
  - cbn. now rewrite !app_nil_r.
  - cbn [foreach]. unfold Runtime.bind. rewrite (pass_body_acc s a ev p).
    destruct (pass_body user_id lead now ([], []) ev p) as [[[s1 a1]|e] p1];
      [|reflexivity].
    rewrite (IH (s ++ s1) (a ++ a1) p1), (IH s1 a1 p1).
    destruct (foreach (pass_body user_id lead now) evs ([], []) p1)
      as [[[s2 a2]|e] p2]; [|reflexivity].
    now rewrite !app_assoc.
Qed.

End Accumulator.
End LoopFacts.

Import LoopFacts.

(** X12. The loop treats the events one after the other and
    independently: filtering a list in two parts, the second part from
    the process the first part left, gives the same lists, jobs and
    exception as filtering it whole. *)
Theorem pass_filter_of_concatenation
    (user_id : string) (lead : Z) (now : datetime)
    (evs1 evs2 : list (string * string)) (p p1 : process)
    (sns1 das1 : list (string * string)) :
  pass_filter user_id lead now evs1 p = (Ok (sns1, das1), p1) ->
  pass_filter user_id lead now (evs1 ++ evs2) p =
  match pass_filter user_id lead now evs2 p1 with
  | (Ok (sns2, das2), p2) => (Ok (sns1 ++ sns2, das1 ++ das2), p2)
  | (Raise e, p2) => (Raise e, p2)
  end.
Proof.
  unfold pass_filter. intros H1.
  rewrite foreach_app. unfold Runtime.bind. rewrite H1.
  apply pass_loop_acc.
Qed.

Module NormalFacts.

Lemma is_space_upper_char c : is_space (upper_char c) = is_space c.
Proof. destruct c as [[] [] [] [] [] [] [] []]; reflexivity. Qed.

Lemma lstrip_upper s : lstrip (upper s) = upper (lstrip s).
Proof.
  induction s as [|c s IH]; [reflexivity|].
  cbn [upper lstrip]. rewrite is_space_upper_char.
  destruct (is_space c); [exact IH | reflexivity].
Qed.

Lemma rstrip_upper s : rstrip (upper s) = upper (rstrip s).
Proof.
  induction s as [|c s IH]; [reflexivity|].
  cbn [upper rstrip]. rewrite IH, is_space_upper_char.
  destruct (rstrip s); cbn [upper]; [destruct (is_space c)|]; reflexivity.
Qed.

Lemma strip_upper s : strip (upper s) = upper (strip s).
Proof. unfold strip. now rewrite lstrip_upper, rstrip_upper. Qed.

Lemma lstrip_blank_prefix l s : all_space l = true -> lstrip (l ++ s)%string = lstrip s.
Proof.
  induction l as [|c l IH]; [reflexivity|].
  cbn [all_space append lstrip]. intros H. apply andb_true_iff in H.
  destruct H as [C A]. rewrite C. exact (IH A).
Qed.

Lemma rstrip_blank r : all_space r = true -> rstrip r = "".
Proof.
  induction r as [|c r IH]; [reflexivity|].
  cbn [all_space rstrip]. intros H. apply andb_true_iff in H.
  destruct H as [C A]. now rewrite (IH A), C.
Qed.

Lemma rstrip_blank_suffix s r : all_space r = true -> rstrip (s ++ r)%string = rstrip s.
Proof.
  intros A. induction s as [|c s IH]; cbn [append rstrip].
  - now apply rstrip_blank.
  - now rewrite IH.
Qed.

Lemma lstrip_blank l : all_space l = true -> lstrip l = "".
Proof.
  induction l as [|c l IH]; [reflexivity|].
  cbn [all_space lstrip]. intros H. apply andb_true_iff in H.
  destruct H as [C A]. now rewrite C, (IH A).
Qed.

Lemma lstrip_app s r :
  lstrip (s ++ r)%string =
  match lstrip s with
  | EmptyString => lstrip r
  | _ => (lstrip s ++ r)%string
  end.
Proof.
  induction s as [|c s IH]; [cbn; now destruct (lstrip r)|].
  cbn [append lstrip]. destruct (is_space c); [exact IH | reflexivity].
Qed.

Lemma strip_blank_around l s r :
  all_space l = true -> all_space r = true ->
  strip (l ++ s ++ r)%string = strip s.
Proof.
  intros Al Ar. unfold strip. rewrite (lstrip_blank_prefix l _ Al), lstrip_app.
  destruct (lstrip s) eqn:E.
  - now rewrite (lstrip_blank r Ar).
  - now apply rstrip_blank_suffix.
Qed.

End NormalFacts.

(** X10. The interest filter does not see blanks around a name nor the
    case of its letters: a name with blanks added at either end is
    kept exactly when the name is, and two names that agree once
    uppercased are kept or left out together. *)
Theorem interest_ignores_case_and_outer_blanks :
  (forall l s r,
     all_space l = true -> all_space r = true ->
     interesting (l ++ s ++ r)%string = interesting s) /\
  (forall s s', upper s = upper s' -> interesting s = interesting s').
Proof.
  split.
  - intros l s r Al Ar. unfold interesting.
    now rewrite (NormalFacts.strip_blank_around l s r Al Ar).
  - intros s s' H. unfold interesting.
    now rewrite <- !NormalFacts.strip_upper, H.
Qed.

Lemma interest_ignores_case_and_outer_blanks_witness :
  interesting (String "009" " " ++ "Landsat 8 (L8)" ++ String "010" "")%string
    = interesting "Landsat 8 (L8)" /\
  interesting "landsat 9" = interesting "LaNdSaT 9".
Proof.
  split.
  - apply (proj1 interest_ignores_case_and_outer_blanks); reflexivity.
  - apply (proj2 interest_ignores_case_and_outer_blanks); reflexivity.
Defined.

(** X11. When the provider returns the events of a satellite in the
    order of time, the rise that [get_next_pass_times] keeps is the
    earliest rise of the window: no event 0 of the sequence is earlier;
    and a sequence is left out exactly when it holds no event 0. *)
Theorem first_rise_is_the_earliest_rise
    (evs : list (datetime * Z)) :
  chronological evs ->
  (forall t, first_rise evs = Some t ->
     In (t, 0) evs /\
     forall t', In (t', 0) evs -> to_microseconds t <= to_microseconds t') /\
  (first_rise evs = None <-> forall t', ~ In (t', 0) evs).
Proof.
  intros C. split.
  - intros t H. pose proof (first_rise_some evs t H) as F. split.
    + destruct F as (before & after & -> & _). apply in_or_app. right. now left.
    + exact (first_rise_is_earliest evs t C F).
  - split.
    + intros H t' Hin. pose proof (first_rise_none evs H) as N.
      unfold no_rise in N. rewrite Forall_forall in N.
      specialize (N _ Hin). now contradiction N.
    + intros H. destruct (first_rise evs) as [t|] eqn:E; [|reflexivity].
      destruct (first_rise_some evs t E) as (before & after & -> & _).
      exfalso. apply (H t). apply in_or_app. right. now left.
Qed.

Module KeptFacts.
Section Kept.
Variables (user_id : string) (lead : Z) (now : datetime).

(** The two lists of the confirmation page go by pairs, and each pair
    comes from one event. *)
Lemma filtered_pairs evs sns das js :
  filtered user_id lead now evs sns das js ->
  Forall2 (fun sn da => exists ev rise fire available,
             In ev evs /\ fst sn = fst ev /\ fst da = fst ev /\
             strptime (snd ev) = Ok rise /\
             strptime (snd sn) = Ok fire /\
             strptime (snd da) = Ok available /\
             datetime_gt fire now = Ok true /\ valid_datetime fire /\
             to_microseconds fire
               = to_microseconds rise - lead * 60 * US_PER_SECOND /\
             to_microseconds available
               = to_microseconds rise + 6 * 3600 * US_PER_SECOND) sns das.
Proof.
  induction 1 as [|ev evs sns das js D F IH|ev evs sn da j sns das js Em F IH].
  - constructor.
  - eapply Forall2_impl; [|exact IH]. cbv beta.
    intros sn da (ev' & rise & fire & av & I & R). exists ev', rise, fire, av.
    split; [now right | exact R].
  - constructor.
    + destruct (emitted_times _ _ _ _ _ _ _ Em)
        as (rise & fire & av & Pev & Psn & Pda & _ & _ & _ & G & V & Lf & La).
      destruct Em as (_ & pt0 & nt0 & av0 & _ & _ & _ & _ & -> & -> & _).
      exists ev, rise, fire, av. cbn [fst snd] in *. repeat split; auto. now left.
    + eapply Forall2_impl; [|exact IH]. cbv beta.
      intros sn' da' (ev' & rise & fire & av & I & R). exists ev', rise, fire, av.
      split; [now right | exact R].
Qed.

(** The events that were kept, in the order of the input. *)
Lemma filtered_kept evs sns das js :
  filtered user_id lead now evs sns das js ->
  exists kept,
    Subseq kept evs /\
    map fst sns = map fst kept /\ map fst das = map fst kept /\
    Forall (fun ev => interesting (fst ev) = true) kept.
Proof.
  induction 1 as [|ev evs sns das js D F (kept & S & N1 & N2 & I)
                  |ev evs sn da j sns das js Em F (kept & S & N1 & N2 & I)].
  - exists []. repeat split; constructor.
  - exists kept. repeat split; auto. now constructor.
  - exists (ev :: kept).
    destruct Em as (Iev & pt0 & nt0 & av0 & _ & _ & _ & _ & -> & -> & _).
    cbn [map fst]. rewrite N1, N2. repeat split; auto; now constructor.
Qed.

(** One job per entry of [scheduled_notifications], in the same order. *)
Lemma filtered_jobs evs sns das js :
  filtered user_id lead now evs sns das js ->
  Forall2 (fun sn j =>
             strptime (snd sn) = Ok (fireAtUtc j) /\
             graceWindowSeconds j = 3600 /\ state j = Pending /\
             exists pass_time_str rise,
               In (fst sn, pass_time_str) evs /\
               payload j = (user_id, pass_message (fst sn) pass_time_str) /\
               strptime pass_time_str = Ok rise /\
               to_microseconds (fireAtUtc j)
                 = to_microseconds rise - lead * 60 * US_PER_SECOND) sns js.
Proof.
  induction 1 as [|ev evs sns das js D F IH|ev evs sn da j sns das js Em F IH].
  - constructor.
  - eapply Forall2_impl; [|exact IH]. cbv beta.
    intros sn j (P & G & St & pts & rise & I & R). repeat split; auto.
    exists pts, rise. split; [now right | exact R].
  - constructor.
    + destruct (emitted_times _ _ _ _ _ _ _ Em)
        as (rise & fire & av & Pev & Psn & _ & J & _ & _ & _ & _ & Lf & _).
      destruct Em as (_ & pt0 & nt0 & av0 & _ & _ & _ & _ & Esn & _ & _ & G & Pl & St).
      rewrite J. repeat split; auto. exists (snd ev), rise. subst sn. cbn [fst].
      split; [left; now destruct ev|]. split; [exact Pl|]. split; [exact Pev | exact Lf].
    + eapply Forall2_impl; [|exact IH]. cbv beta.
      intros sn' j' (P & G & St & pts & rise & I & R). repeat split; auto.
      exists pts, rise. split; [now right | exact R].
Qed.

End Kept.
End KeptFacts.

Import KeptFacts.

(** X3. With a lead that is not negative, every notification on the
    confirmation page is for a pass that has not begun: the reference
    time is before the fire time, the fire time is at or before the
    rise, and the data are announced for six hours after the rise, so
    more than six hours after the reference time. *)
Theorem scheduled_passes_are_in_the_future
    (user_id : string) (lead : Z) (now : datetime)
    (evs : list (string * string)) (p p' : process)
    (sns das : list (string * string)) :
  valid_datetime now ->
  0 <= lead ->
  pass_filter user_id lead now evs p = (Ok (sns, das), p') ->
  Forall2 (fun sn da => exists ev rise fire available,
             In ev evs /\ fst sn = fst ev /\ fst da = fst ev /\
             strptime (snd ev) = Ok rise /\
             strptime (snd sn) = Ok fire /\
             strptime (snd da) = Ok available /\
             to_microseconds now < to_microseconds fire /\
             to_microseconds fire <= to_microseconds rise /\
             to_microseconds rise < to_microseconds available /\
             to_microseconds now + 6 * 3600 * US_PER_SECOND
               < to_microseconds available) sns das.
Proof.
  intros Vnow L H. filter_inversion H as js F.
  eapply Forall2_impl; [|exact (filtered_pairs _ _ _ _ _ _ _ F)]. cbv beta.
  intros sn da (ev & rise & fire & av & I & N1 & N2 & Pev & Psn & Pda & G & Vf & Lf & La).
  pose proof (datetime_gt_true_line fire now Vf Vnow G) as Lt.
  exists ev, rise, fire, av. unfold US_PER_SECOND in *. repeat split; auto; lia.
Qed.

(** X4. The confirmation page keeps the order of the oracle and its
    spelling of the names: the names of [scheduled_notifications] are
    the names of the events kept, in the order of [next_passes], each
    of interest; [data_availabilities] carries the same names in the
    same order. *)
Theorem confirmation_lists_keep_order_and_names
    (user_id : string) (lead : Z) (now : datetime)
    (evs : list (string * string)) (p p' : process)
    (sns das : list (string * string)) :
  pass_filter user_id lead now evs p = (Ok (sns, das), p') ->
  exists kept,
    Subseq kept evs /\
    map fst sns = map fst kept /\
    map fst das = map fst sns /\
    Forall (fun ev => interesting (fst ev) = true) kept /\
    List.length sns = List.length kept /\ List.length das = List.length kept.
Proof.
  intros H. filter_inversion H as js F.
  destruct (filtered_kept _ _ _ _ _ _ _ F) as (kept & S & N1 & N2 & I).
  exists kept. repeat split; auto; try congruence.
  - apply (f_equal (@List.length string)) in N1. now rewrite !List.length_map in N1.
  - apply (f_equal (@List.length string)) in N2. now rewrite !List.length_map in N2.
Qed.

(** X5. What the confirmation page lists is what was handed to the
    scheduler: the handler appends one pending job per entry, in the
    order of the page and after the jobs that were there, with the
    entry's time as run date, a grace of 3600 s, the form's user as
    recipient and a message that names the satellite and gives its rise
    time, which is the run date plus the lead of the form. *)
Theorem confirmation_page_lists_the_scheduled_jobs
    (E : Env.t) (req : request) (p p' : process)
    (np sns das : list (string * string)) (user_id : string) :
  home E req p = (Ok (confirmation_html np sns das user_id), p') ->
  exists latitude longitude lead js,
    read_form E req = Ok (latitude, longitude, lead, user_id) /\
    job_set p' = job_set p ++ js /\
    Forall2 (fun sn j =>
               strptime (snd sn) = Ok (fireAtUtc j) /\
               graceWindowSeconds j = 3600 /\ state j = Pending /\
               exists pass_time_str rise,
                 payload j = (user_id, pass_message (fst sn) pass_time_str) /\
                 strptime pass_time_str = Ok rise /\
                 to_microseconds (fireAtUtc j)
                   = to_microseconds rise - lead * 60 * US_PER_SECOND) sns js.
Proof.
  intros H.
  destruct (home_confirmation_inv _ _ _ _ _ _ _ _ H)
    as (lat & lon & lead & evs & p2 & p4 & RF & G & PF & _ & ->).
  destruct (get_next_pass_times_run _ _ _ _ _ _ G) as (k & -> & _).
  filter_inversion PF as js F.
  exists lat, lon, lead, js. split; [exact RF|]. split; [reflexivity|].
  eapply Forall2_impl; [|exact (filtered_jobs _ _ _ _ _ _ _ F)]. cbv beta.
  intros sn j (P & Gr & St & pts & rise & _ & Pl & Pr & L). repeat split; eauto.
Qed.

Module RangeFacts.

Lemma calendar_ends :
  to_microseconds datetime_min = US_PER_DAY /\
  to_microseconds datetime_max = (MAXORDINAL + 1) * US_PER_DAY - 1.
Proof. split; reflexivity. Qed.

Lemma in_calendar_days us :
  in_calendar us <-> 0 < us / US_PER_DAY <= MAXORDINAL.
Proof.
  unfold in_calendar. destruct calendar_ends as [-> ->].
  unfold US_PER_DAY, US_PER_SECOND, MAXORDINAL. lia.
Qed.

Lemma mk_timedelta_raises us e : mk_timedelta us = Raise e -> e = OverflowError.
Proof. unfold mk_timedelta. destruct (_ <=? _); congruence. Qed.

Lemma datetime_add_raises d t e : datetime_add d t = Raise e -> e = OverflowError.
Proof.
  unfold datetime_add, mk_timedelta, result_bind.
  destruct (_ <=? _); [|congruence].
  destruct (_ && _); [|congruence].
  destruct (ord2ymd _) as [[? ?] ?]. discriminate.
Qed.

Lemma datetime_sub_raises d t e : datetime_sub d t = Raise e -> e = OverflowError.
Proof.
  unfold datetime_sub, result_bind.
  destruct (mk_timedelta (- t)) eqn:M.
  - apply datetime_add_raises.
  - intros H. injection H as <-. exact (mk_timedelta_raises _ _ M).
Qed.

(** [datetime + timedelta] succeeds exactly when the sum is a time of
    the calendar. *)
Lemma datetime_add_in_calendar d t :
  in_calendar (to_microseconds d + t) -> exists d', datetime_add d t = Ok d'.
Proof.
  rewrite in_calendar_days. intros [H1 H2].
  unfold datetime_add, mk_timedelta, result_bind, td_days.
  set (total := to_microseconds d + t) in *.
  replace (Z.abs (total / US_PER_DAY) <=? 999999999) with true
    by (symmetry; apply Z.leb_le; unfold MAXORDINAL in H2; lia).
  replace ((0 <? total / US_PER_DAY) && (total / US_PER_DAY <=? MAXORDINAL)) with true.
  2:{ symmetry. apply andb_true_iff. split; [now apply Z.ltb_lt | now apply Z.leb_le]. }
  destruct (ord2ymd _) as [[? ?] ?]. eexists. reflexivity.
Qed.

Lemma valid_in_calendar d : valid_datetime d -> in_calendar (to_microseconds d).
Proof.
  intros V. apply in_calendar_days.
  assert (B : 1 <= toordinal d <= MAXORDINAL).
  { assert (Vmax : valid_datetime datetime_max) by reflexivity.
    pose proof (toordinal_year_lt d datetime_max V Vmax) as Y.
    pose proof (toordinal_month_lt d datetime_max V Vmax) as Mo.
    change (toordinal datetime_max) with MAXORDINAL in Y, Mo.
    change (year datetime_max) with 9999 in Y, Mo.
    change (month datetime_max) with 12 in Mo.
    apply valid_datetime_iff in V. unfold MINYEAR, MAXYEAR in V.
    pose proof (days_before_month_bounds (year d) (month d) ltac:(lia)) as Bm.
    split.
    - unfold toordinal, ymd2ord, days_before_year. cbv zeta.
      generalize dependent (days_before_month (year d) (month d)). intros. lia.
    - destruct (Z.eq_dec (year d) 9999) as [Ey|Ny]; [|lia].
      destruct (Z.eq_dec (month d) 12) as [Em|Nm]; [|lia].
      destruct V as (_ & _ & Hd & _). unfold toordinal. rewrite Ey, Em in *.
      change (days_in_month 9999 12) with 31 in Hd.
      change (ymd2ord 9999 12 (day d)) with (3652028 + day d).
      unfold MAXORDINAL. lia. }
  apply valid_datetime_iff in V.
  unfold to_microseconds, US_PER_DAY, US_PER_SECOND, MAXORDINAL in *.
  generalize dependent (toordinal d). intros. lia.
Qed.

Lemma fire_time_raises lead rise e : fire_time lead rise = Raise e -> e = OverflowError.
Proof.
  unfold fire_time, result_bind. destruct (timedelta_minutes lead) eqn:M.
  - apply datetime_sub_raises.
  - intros H. injection H as <-. exact (mk_timedelta_raises _ _ M).
Qed.

Lemma availability_time_raises rise e :
  availability_time rise = Raise e -> e = OverflowError.
Proof.
  unfold availability_time, result_bind. destruct (timedelta_hours 6) eqn:M.
  - apply datetime_add_raises.
  - intros H. injection H as <-. exact (mk_timedelta_raises _ _ M).
Qed.

(** [pass_time - timedelta(minutes=lead)] succeeds exactly when the
    difference is a time of the calendar. *)
Lemma fire_time_range lead rise :
  valid_datetime rise ->
  (in_calendar (to_microseconds rise - lead * 60 * US_PER_SECOND) ->
   exists fire, fire_time lead rise = Ok fire) /\
  (~ in_calendar (to_microseconds rise - lead * 60 * US_PER_SECOND) ->
   fire_time lead rise = Raise OverflowError).
Proof.
  intros V. pose proof (valid_in_calendar rise V) as Cr. split.
  - intros C. unfold fire_time, timedelta_minutes, datetime_sub, mk_timedelta,
      result_bind, td_days.
    rewrite in_calendar_days in C, Cr.
    replace (Z.abs (lead * 60 * US_PER_SECOND / US_PER_DAY) <=? 999999999) with true.
    2:{ symmetry. apply Z.leb_le.
        unfold US_PER_DAY, US_PER_SECOND, MAXORDINAL in *.
        generalize dependent (to_microseconds rise). intros. lia. }
    replace (Z.abs (- (lead * 60 * US_PER_SECOND) / US_PER_DAY) <=? 999999999) with true.
    2:{ symmetry. apply Z.leb_le.
        unfold US_PER_DAY, US_PER_SECOND, MAXORDINAL in *.
        generalize dependent (to_microseconds rise). intros. lia. }
    apply datetime_add_in_calendar. apply in_calendar_days.
    replace (to_microseconds rise + - (lead * 60 * US_PER_SECOND))
      with (to_microseconds rise - lead * 60 * US_PER_SECOND) by lia.
    exact C.
  - intros N. destruct (fire_time lead rise) as [fire|e] eqn:F.
    + exfalso. apply N. destruct (fire_time_spec _ _ _ F) as (Vf & L & _).
      rewrite <- L. now apply valid_in_calendar.
    + now rewrite (fire_time_raises _ _ _ F).
Qed.

Lemma availability_time_range rise :
  (in_calendar (to_microseconds rise + 6 * 3600 * US_PER_SECOND) ->
   exists available, availability_time rise = Ok available) /\
  (~ in_calendar (to_microseconds rise + 6 * 3600 * US_PER_SECOND) ->
   availability_time rise = Raise OverflowError).
Proof.
  split.
  - intros C. unfold availability_time.
    change (timedelta_hours 6) with (Ok (A:=timedelta) (6 * 3600 * US_PER_SECOND)).
    cbn [result_bind]. now apply datetime_add_in_calendar.
  - intros N. destruct (availability_time rise) as [av|e] eqn:A.
    + exfalso. apply N. destruct (availability_time_spec _ _ A) as (Va & L & _).
      rewrite <- L. now apply valid_in_calendar.
    + now rewrite (availability_time_raises _ _ A).
Qed.

Section Raising.
Variables (user_id : string) (lead : Z) (now : datetime).

(** The exceptions of the loop body, by where they come from. *)
Lemma pass_body_raises acc ev p e p' :
  pass_body user_id lead now acc ev p = (Raise e, p') ->
  strptime (snd ev) = Raise e \/ e = OverflowError \/
  (e = TypeError /\ tzinfo now <> None).
Proof.
  destruct acc as [s a]. destruct ev as [name pts]. unfold pass_body. cbn [snd].
  destruct (interesting name); [|discriminate].
  unfold Runtime.bind at 1. unfold lift at 1.
  destruct (strptime pts) as [pt|e0] eqn:P.
  2:{ intros H. injection H as <- <-. now left. }
  destruct (strptime_inv _ _ P) as (Vpt & Upt & Tpt).
  unfold Runtime.bind at 1. unfold lift at 1.
  destruct (timedelta_minutes lead) as [td|e0] eqn:TD.
  2:{ intros H. injection H as <- <-. right. left.
      exact (mk_timedelta_raises _ _ TD). }
  unfold Runtime.bind at 1. unfold lift at 1.
  destruct (datetime_sub pt td) as [nt|e0] eqn:SUB.
  2:{ intros H. injection H as <- <-. right. left.
      exact (datetime_sub_raises _ _ _ SUB). }
  assert (F : fire_time lead pt = Ok nt).
  { unfold fire_time. rewrite TD. exact SUB. }
  destruct (fire_time_spec _ _ _ F) as (Vnt & Lnt & Tnt).
  assert (Unt : microsecond nt = 0).
  { apply (whole_seconds_shift pt nt (- (lead * 60)) Vpt Vnt); [lia | exact Upt]. }
  unfold Runtime.bind at 1. unfold lift at 1.
  destruct (datetime_gt nt now) as [[|]|e0] eqn:GT.
  3:{ intros H. injection H as <- <-. right. right.
      unfold datetime_gt, same_kind in GT. rewrite Tnt, Tpt in GT.
      destruct (tzinfo now); [|discriminate GT].
      injection GT as <-. split; [reflexivity | discriminate]. }
  2:{ discriminate. }
  unfold Runtime.bind at 1.
  rewrite schedule_notification_run by (try assumption; congruence).
  unfold Runtime.bind at 1. unfold lift at 1.
  rewrite (estimate_data_availability_eq _ _ P).
  destruct (availability_time pt) as [av|e0] eqn:AV; cbn [result_bind]; [discriminate|].
  intros H. injection H as <- <-. right. left.
  exact (availability_time_raises _ _ AV).
Qed.

Lemma pass_loop_raises evs : forall acc p e p',
  foreach (pass_body user_id lead now) evs acc p = (Raise e, p') ->
  (exists ev, In ev evs /\ strptime (snd ev) = Raise e) \/ e = OverflowError \/
  (e = TypeError /\ tzinfo now <> None).
Proof.
  induction evs as [|ev evs IH]; intros acc p e p' H; [discriminate|].
  cbn [foreach] in H. unfold Runtime.bind in H.
  destruct (pass_body user_id lead now acc ev p) as [[acc1|e1] p1] eqn:B.
  - destruct (IH _ _ _ _ H) as [(ev' & I & P) | R]; [|now right].
    left. exists ev'. split; [now right | exact P].
  - injection H as <- <-.
    destruct (pass_body_raises _ _ _ _ _ B) as [P | R]; [|now right].
    left. exists ev. split; [now left | exact P].
Qed.

(** An event of interest whose notification time cannot be computed
    stops the loop there, with nothing scheduled for it. *)
Lemma pass_body_fire_time_raises acc name pts rise e p :
  interesting name = true -> strptime pts = Ok rise ->
  fire_time lead rise = Raise e ->
  pass_body user_id lead now acc (name, pts) p = (Raise e, p).
Proof.
  intros I P F. destruct acc as [s a]. unfold pass_body. rewrite I.
  unfold Runtime.bind, lift. rewrite P. unfold fire_time, result_bind in F.
  destruct (timedelta_minutes lead) as [td|e0].
  - now rewrite F.
  - now injection F as <-.
Qed.

End Raising.

Lemma year_le_of_line a b :
  valid_datetime a -> valid_datetime b ->
  to_microseconds a <= to_microseconds b -> year a <= year b.
Proof.
  intros Va Vb L.
  destruct (Z_le_gt_dec (year a) (year b)) as [|G]; [assumption|exfalso].
  pose proof (toordinal_year_lt b a Vb Va ltac:(lia)) as T.
  apply valid_datetime_iff in Va, Vb.
  unfold to_microseconds, US_PER_SECOND in L. lia.
Qed.

End RangeFacts.

Import RangeFacts.

(** X6. [estimate_data_availability] on a text that reads as the time
    [rise]: when [rise + 6 h] is not a time of the calendar (it is past
    9999-12-31 23:59:59.999999) it raises [OverflowError]; otherwise,
    for a rise in year 1000 or later (from where on [%Y] is written on
    four digits whatever the C library), it returns the text of exactly
    [rise + 6 h], a time of year 1000 or later that reads back from the
    text. *)
Theorem estimate_data_availability_range (pass_time_str : string) (rise : datetime) :
  strptime pass_time_str = Ok rise ->
  (1000 <= year rise ->
   in_calendar (to_microseconds rise + 6 * 3600 * US_PER_SECOND) ->
   exists available,
     estimate_data_availability pass_time_str = Ok (strftime available) /\
     1000 <= year available /\
     strptime (strftime available) = Ok available /\
     to_microseconds available
       = to_microseconds rise + 6 * 3600 * US_PER_SECOND) /\
  (~ in_calendar (to_microseconds rise + 6 * 3600 * US_PER_SECOND) ->
   estimate_data_availability pass_time_str = Raise OverflowError).
Proof.
  intros P. rewrite (estimate_data_availability_eq _ _ P).
  destruct (strptime_inv _ _ P) as (Vr & Ur & Tr).
  destruct (availability_time_range rise) as [Hin Hout]. split.
  - intros Y C. destruct (Hin C) as [av A]. rewrite A. cbn [result_bind].
    destruct (availability_time_spec _ _ A) as (Va & La & Ta).
    exists av. split; [reflexivity|]. split.
    { pose proof (year_le_of_line rise av Vr Va) as M.
      unfold US_PER_SECOND in La, M. lia. }
    split; [|exact La].
    apply strptime_strftime_whole; [exact Va | | congruence].
    apply (whole_seconds_shift rise av (6 * 3600) Vr Va); [lia | exact Ur].
  - intros N. now rewrite (Hout N).
Qed.

(** X7. A lead time that takes the notification time of an event of
    interest out of the calendar (before year 1 or after year 9999) is
    not answered with "no passes": the loop stops at that event with
    [OverflowError], and nothing is scheduled if the events before it
    were dropped. *)
Theorem lead_beyond_the_calendar_raises
    (user_id : string) (lead : Z) (now : datetime)
    (before rest : list (string * string))
    (satellite_name pass_time_str : string) (rise : datetime) (p : process) :
  Forall (dropped lead now) before ->
  interesting satellite_name = true ->
  strptime pass_time_str = Ok rise ->
  ~ in_calendar (to_microseconds rise - lead * 60 * US_PER_SECOND) ->
  pass_filter user_id lead now (before ++ (satellite_name, pass_time_str) :: rest) p
  = (Raise OverflowError, p).
Proof.
  intros D I P N. unfold pass_filter. rewrite foreach_app. unfold Runtime.bind.
  rewrite (pass_loop_dropped user_id lead now before ([], []) p D).
  cbn [foreach]. unfold Runtime.bind.
  destruct (strptime_inv _ _ P) as (Vr & _).
  rewrite (pass_body_fire_time_raises user_id lead now ([], []) satellite_name
             pass_time_str rise OverflowError p I P
             (proj2 (fire_time_range lead rise Vr) N)).
  reflexivity.
Qed.

Module RequestFacts.

Section Oracle.
Variables (E : Env.t) (latitude longitude : float).

Lemma next_pass_loop_ticks sats : forall acc p r p',
  foreach (next_pass_body E latitude longitude) sats acc p = (r, p') ->
  exists k, p' = set_ticks (ticks p + k)%nat p /\
            (k <= List.length sats)%nat /\
            match r with
            | Ok _ => k = List.length sats
            | Raise e => (1 <= k)%nat /\ e = OverflowError
            end.
Proof.
  induction sats as [|sat sats IH]; intros acc p r p' H.
  - cbn in H. injection H as <- <-. exists O.
    rewrite Nat.add_0_r, set_ticks_same. cbn. auto.
  - cbn [foreach] in H. unfold Runtime.bind in H.
    destruct (next_pass_body E latitude longitude acc sat p) as [r1 p1] eqn:B.
    destruct (next_pass_body_run _ _ _ _ _ _ _ _ B) as [-> _].
    destruct r1 as [acc1|e].
    + destruct (IH _ _ _ _ H) as (k & -> & Le & R). exists (S k).
      cbn [ticks set_ticks List.length]. rewrite set_ticks_set_ticks.
      split; [f_equal; lia|]. split; [lia|].
      destruct r; [lia | split; [lia | tauto]].
    + injection H as <- <-. exists 1%nat. cbn [List.length].
      split; [f_equal; lia|]. split; [lia|]. split; [lia|].
      unfold next_pass_body, Runtime.bind, lift, ts_now, ret in B.
      change (timedelta_days 2) with (Ok (A:=timedelta) (2 * US_PER_DAY)) in B.
      cbv iota beta in B.
      destruct (datetime_add _ _) as [t1|e1] eqn:A.
      * destruct (first_rise _); discriminate B.
      * injection B as <-. exact (datetime_add_raises _ _ _ A).
Qed.

(** When the provider's times are datetimes, every text the oracle
    returns reads back as a time. *)
Lemma oracle_texts_parse evs p p' :
  (forall sat t0 t1 ti ev,
     In (ti, ev) (Env.find_events E sat latitude longitude t0 t1) ->
     valid_datetime ti) ->
  get_next_pass_times E latitude longitude p = (Ok evs, p') ->
  Forall (fun ev => exists rise, strptime (snd ev) = Ok rise) evs.
Proof.
  intros V G.
  destruct (get_next_pass_times_run _ _ _ _ _ _ G) as (k & _ & cs & F & ->).
  clear G. induction F as [|sat c sats cs Q F IH]; [constructor|].
  cbn [List.concat]. apply Forall_app. split; [|exact IH].
  destruct Q as (k' & t1 & _ & _ & [[_ ->] | (t & R & ->)]); [constructor|].
  constructor; [|constructor]. cbn [snd].
  exists (truncate_to_seconds t). apply strptime_strftime.
  destruct R as (before & after & Ev & _).
  apply (V sat (aware (Env.clock E k')) t1 t 0). rewrite Ev.
  apply in_or_app. right. now left.
Qed.

End Oracle.

(** What a request whose form converts does to the process, whatever
    the answer. *)
Lemma home_frame E req p latitude longitude lead user_id :
  method req = POST ->
  read_form E req = Ok (latitude, longitude, lead, user_id) ->
  exists resp p' k js saves,
    home E req p = (Ok resp, p') /\
    p' = set_map_saves (map_saves p ++ saves)
           (with_jobs js
              (set_ticks (ticks p + k)%nat
                 (set_outbox (outbox p ++ [confirmation_mail user_id]) p))).
Proof.
  intros Hm RF. rewrite (home_post E req p Hm), RF. cbv zeta.
  set (p1 := set_outbox (outbox p ++ [confirmation_mail user_id]) p).
  destruct (get_next_pass_times E latitude longitude p1) as [r2 p2] eqn:G.
  destruct (get_next_pass_times_run _ _ _ _ _ _ G) as (k & -> & _).
  destruct r2 as [evs|e].
  2:{ exists (error_html (StrOf e)), (set_ticks (ticks p1 + k) p1), k, [], [].
      split; [reflexivity|]. rewrite with_jobs_nil, app_nil_r.
      destruct p; reflexivity. }
  cbn [ticks set_ticks].
  match goal with |- context [pass_filter ?u ?l ?n ?ev ?q] =>
    destruct (pass_filter u l n ev q) as [r4 p4] eqn:PF end.
  unfold pass_filter in PF.
  destruct (pass_loop_run _ _ _ _ _ _ _ _ _ PF) as (js & -> & _).
  assert (T : set_ticks (S (ticks p1 + k)) (set_ticks (ticks p1 + k) p1)
              = set_ticks (ticks p + S k) p1).
  { rewrite set_ticks_set_ticks. f_equal. cbn. lia. }
  rewrite T.
  destruct r4 as [[[|sn sns] das]|e].
  - exists (error_html (Text no_passes_message)), (with_jobs js (set_ticks (ticks p + S k) p1)),
      (S k), js, []. split; [reflexivity|]. rewrite app_nil_r.
    destruct p; reflexivity.
  - eexists _, _, (S k), js, [(latitude, longitude)]. split; reflexivity.
  - exists (error_html (StrOf e)), (with_jobs js (set_ticks (ticks p + S k) p1)),
      (S k), js, []. split; [reflexivity|]. rewrite app_nil_r.
    destruct p; reflexivity.
Qed.

Lemma map_route_last saves x p :
  map_route (set_map_saves (saves ++ [x]) p) = Some x.
Proof. unfold map_route. cbn [map_saves set_map_saves]. now rewrite rev_unit. Qed.

End RequestFacts.

Import RequestFacts.

(** X1. The confirmation mail is sent once, to the user of the form, by
    every POST whose four fields are read, whatever the answer turns
    out to be (confirmation, "no passes" or the page of a later
    exception); a GET and a POST that fails to read its form send
    nothing; the handler itself never sends a pass notification. *)
Theorem confirmation_mail_is_sent_once (E : Env.t) (req : request) (p : process) :
  exists resp p',
    home E req p = (Ok resp, p') /\
    outbox p' =
      outbox p ++
      match method req, read_form E req with
      | POST, Ok (_, _, _, user_id) => [confirmation_mail user_id]
      | _, _ => []
      end.
Proof.
  destruct (method req) eqn:Hm.
  - rewrite (home_get_page E req p Hm). exists home_html, p. now rewrite app_nil_r.
  - destruct (read_form E req) as [[[[lat lon] lead] uid]|e] eqn:RF.
    + destruct (home_frame E req p lat lon lead uid Hm RF)
        as (resp & p' & k & js & saves & H & ->).
      exists resp. eexists. split; [exact H | reflexivity].
    + rewrite (home_post E req p Hm), RF.
      exists (error_html (StrOf e)), p. now rewrite app_nil_r.
Qed.

(** X2. Once the form has been read, the only exception the handler
    can meet is a date out of range: if the provider's event times are
    datetimes, every text of the oracle reads back as a time, and an
    error page after the conversion of the form shows [OverflowError]. *)
Theorem only_overflow_after_the_form_is_read
    (E : Env.t) (req : request) (p p' : process)
    (latitude longitude : float) (lead : Z) (user_id : string) (e : exn) :
  (forall sat t0 t1 ti ev,
     In (ti, ev) (Env.find_events E sat latitude longitude t0 t1) ->
     valid_datetime ti) ->
  method req = POST ->
  read_form E req = Ok (latitude, longitude, lead, user_id) ->
  home E req p = (Ok (error_html (StrOf e)), p') ->
  e = OverflowError.
Proof.
  intros V Hm RF H. rewrite (home_post E req p Hm), RF in H. cbv zeta in H.
  destruct (get_next_pass_times E latitude longitude _) as [[evs|e2] p2] eqn:G.
  2:{ injection H as <- <-. unfold get_next_pass_times in G.
      destruct (next_pass_loop_ticks _ _ _ _ _ _ _ _ G) as (k & _ & _ & _ & R).
      exact R. }
  pose proof (oracle_texts_parse E latitude longitude evs _ _ V G) as Parse.
  destruct (pass_filter _ _ _ _ _) as [[[[|sn sns] das]|e4] p4] eqn:PF;
    try discriminate H.
  injection H as <- <-. unfold pass_filter in PF.
  destruct (pass_loop_raises _ _ _ _ _ _ _ _ PF) as [(ev & I & P) | [R | [_ N]]].
  - rewrite Forall_forall in Parse. destruct (Parse ev I) as [rise P'].
    rewrite P' in P. discriminate P.
  - exact R.
  - now contradiction N.
Qed.

(** X8. The handler does not take back what it scheduled: when the
    loop raises at an event, the jobs of the events kept before it stay
    in the scheduler (with, at most, the job of the event itself) while
    the requester is shown the error page. *)
Theorem jobs_survive_a_later_exception
    (E : Env.t) (req : request) (p p2 p4 p5 : process)
    (latitude longitude : float) (lead : Z) (user_id : string)
    (evs1 rest : list (string * string)) (ev : string * string)
    (sns1 das1 : list (string * string)) (e : exn) :
  method req = POST ->
  read_form E req = Ok (latitude, longitude, lead, user_id) ->
  get_next_pass_times E latitude longitude
    (set_outbox (outbox p ++ [confirmation_mail user_id]) p)
    = (Ok (evs1 ++ ev :: rest), p2) ->
  pass_filter user_id lead (naive (Env.clock E (ticks p2))) evs1
    (set_ticks (S (ticks p2)) p2) = (Ok (sns1, das1), p4) ->
  pass_body user_id lead (naive (Env.clock E (ticks p2))) (sns1, das1) ev p4
    = (Raise e, p5) ->
  home E req p = (Ok (error_html (StrOf e)), p5) /\
  exists js extra,
    job_set p5 = job_set p ++ js ++ extra /\
    List.length js = List.length sns1 /\
    (List.length extra <= 1)%nat.
Proof.
  intros Hm RF G PF1 B.
  pose proof (home_post E req p Hm) as HP. rewrite RF in HP. cbv zeta in HP.
  rewrite G in HP.
  assert (PF : pass_filter user_id lead (naive (Env.clock E (ticks p2)))
                 (evs1 ++ ev :: rest) (set_ticks (S (ticks p2)) p2)
               = (Raise e, p5)).
  { unfold pass_filter in *. rewrite foreach_app. unfold Runtime.bind at 1.
    rewrite PF1. cbn [foreach]. unfold Runtime.bind. now rewrite B. }
  rewrite PF in HP. split; [exact HP|].
  destruct (get_next_pass_times_run _ _ _ _ _ _ G) as (k & -> & _).
  filter_inversion PF1 as js F.
  destruct (filtered_length _ _ _ _ _ _ _ F) as (L1 & _).
  destruct (pass_body_run _ _ _ _ _ _ _ _ _ B)
    as [(X & _) | [(sn & da & j & X & _) | (e' & _ & [-> | [j ->]])]];
    try discriminate X.
  - exists js, []. rewrite app_nil_r. cbn. auto.
  - exists js, [j]. cbn. rewrite <- app_assoc. auto.
Qed.

(** X9. What [/map] serves is the grid of the latest request that was
    answered with the confirmation page: such a request replaces the
    map by the grid around its own coordinates, and every other request
    leaves the map as it was. *)
Theorem map_route_serves_the_latest_success
    (E : Env.t) (req : request) (p : process) :
  exists resp p',
    home E req p = (Ok resp, p') /\
    match resp with
    | confirmation_html _ _ _ user_id =>
        exists latitude longitude lead,
          read_form E req = Ok (latitude, longitude, lead, user_id) /\
          map_route p' = Some (latitude, longitude)
    | _ => map_route p' = map_route p
    end.
Proof.
  destruct (home_outcome E req p) as (resp & p' & js & H & J & R).
  exists resp, p'. split; [exact H|].
  destruct resp as [|[m|e]|np sns das uid].
  - now subst p'.
  - destruct R as (_ & _ & S & _). unfold map_route. now rewrite S.
  - unfold map_route. now rewrite R.
  - destruct R as (_ & _ & _ & _ & lat & lon & lead & RF & S).
    exists lat, lon, lead. split; [exact RF|].
    unfold map_route. now rewrite S, rev_unit.
Qed.

(** X13. The pass oracle does nothing to the process but read the
    clock, once per catalogue entry: it schedules nothing, sends
    nothing and writes no map; when the two-day window of an entry
    cannot be computed it stops there with [OverflowError]. *)
Theorem oracle_only_reads_the_clock
    (E : Env.t) (latitude longitude : float) (p p' : process)
    (r : result (list (string * string))) :
  get_next_pass_times E latitude longitude p = (r, p') ->
  exists k,
    p' = set_ticks (ticks p + k)%nat p /\
    (k <= List.length (Env.tle_file E))%nat /\
    match r with
    | Ok _ => k = List.length (Env.tle_file E)
    | Raise e => (1 <= k)%nat /\ e = OverflowError
    end.
Proof.
  intros G. unfold get_next_pass_times in G.
  destruct (next_pass_loop_ticks E latitude longitude _ _ _ _ _ G)
    as (k & Fr & Le & R).
  exists k. split; [exact Fr|]. split; [exact Le | exact R].
Qed.

(** ** These properties at work on the sample environment *)

Lemma chronologicalb_sound evs : chronologicalb evs = true -> chronological evs.
Proof.
  induction evs as [|e0 evs IH]; intros H before e after e' Eq Hin.
  - destruct before; discriminate Eq.
  - cbn [chronologicalb] in H. apply andb_true_iff in H. destruct H as [H1 H2].
    destruct before as [|b before]; cbn [app] in Eq; injection Eq as -> ->.
    + rewrite forallb_forall in H1. apply Z.leb_le. now apply H1.
    + exact (IH H2 before e after e' eq_refl Hin).
Qed.

Lemma sample_times_are_valid catalogue latitude longitude sat t0 t1 ti ev :
  In (ti, ev) (Env.find_events (Sample.env catalogue) sat latitude longitude t0 t1) ->
  valid_datetime ti.
Proof.
  cbn [Env.find_events Sample.env]. unfold Sample.events_of.
  destruct (Env.satnum sat =? 39084);
    [|destruct (Env.satnum sat =? 33591); [|destruct (Env.satnum sat =? 49260)]];
    cbn [In]; intros H;
    repeat (destruct H as [H|H]; [injection H as <- _; reflexivity|]);
    contradiction H.
Qed.

Lemma sample_first_part_run :
  pass_filter "u@x.org" 30 Sample.noon
    [("NOAA 19", "2024-06-01 14:00:00"); ("LANDSAT 8", "2024-06-01 22:00:00")]
    Sample.idle
  = (Ok ([Sample.landsat8_entry], [Sample.landsat8_available]),
     with_jobs [Sample.landsat8_job] Sample.idle).
Proof. vm_compute. reflexivity. Qed.

Lemma pass_filter_of_concatenation_witness :
  pass_filter "u@x.org" 30 Sample.noon
    ([("NOAA 19", "2024-06-01 14:00:00"); ("LANDSAT 8", "2024-06-01 22:00:00")]
       ++ [("LANDSAT 9", "2024-06-01 12:10:00")]) Sample.idle
  = match pass_filter "u@x.org" 30 Sample.noon [("LANDSAT 9", "2024-06-01 12:10:00")]
            (with_jobs [Sample.landsat8_job] Sample.idle) with
    | (Ok (sns2, das2), p2) =>
        (Ok ([Sample.landsat8_entry] ++ sns2, [Sample.landsat8_available] ++ das2), p2)
    | (Raise e, p2) => (Raise e, p2)
    end.
Proof.
  exact (pass_filter_of_concatenation _ _ _ _ _ _ _ _ _ sample_first_part_run).
Defined.

Lemma first_rise_is_the_earliest_rise_witness :
  chronological (Sample.events_of Sample.landsat8) /\
  first_rise (Sample.events_of Sample.landsat8) = Some Sample.landsat8_rise /\
  forall t', In (t', 0) (Sample.events_of Sample.landsat8) ->
             to_microseconds Sample.landsat8_rise <= to_microseconds t'.
Proof.
  assert (C : chronological (Sample.events_of Sample.landsat8))
    by (apply chronologicalb_sound; reflexivity).
  split; [exact C|]. split; [reflexivity|].
  exact (proj2 (proj1 (first_rise_is_the_earliest_rise _ C)
                      Sample.landsat8_rise eq_refl)).
Defined.

Lemma scheduled_passes_are_in_the_future_witness :
  valid_datetime Sample.noon /\ 0 <= 30 /\
  Forall2 (fun sn da => exists ev rise fire available,
             In ev Sample.passes /\ fst sn = fst ev /\ fst da = fst ev /\
             strptime (snd ev) = Ok rise /\
             strptime (snd sn) = Ok fire /\
             strptime (snd da) = Ok available /\
             to_microseconds Sample.noon < to_microseconds fire /\
             to_microseconds fire <= to_microseconds rise /\
             to_microseconds rise < to_microseconds available /\
             to_microseconds Sample.noon + 6 * 3600 * US_PER_SECOND
               < to_microseconds available)
          [Sample.landsat8_entry] [Sample.landsat8_available].
Proof.
  assert (V : valid_datetime Sample.noon) by reflexivity.
  assert (L : 0 <= 30) by lia.
  split; [exact V|]. split; [exact L|].
  exact (scheduled_passes_are_in_the_future _ _ _ _ _ _ _ _ V L sample_filter_run).
Defined.

Lemma confirmation_lists_keep_order_and_names_witness :
  exists kept,
    Subseq kept Sample.passes /\
    map fst [Sample.landsat8_entry] = map fst kept /\
    map fst [Sample.landsat8_available] = map fst [Sample.landsat8_entry] /\
    Forall (fun ev => interesting (fst ev) = true) kept /\
    List.length [Sample.landsat8_entry] = List.length kept /\
    List.length [Sample.landsat8_available] = List.length kept.
Proof.
  exact (confirmation_lists_keep_order_and_names _ _ _ _ _ _ _ _ sample_filter_run).
Defined.

Lemma sample_request_run :
  home (Sample.env Sample.catalogue) Sample.request_30 Sample.idle
  = (Ok (confirmation_html [Sample.landsat8_entry] [Sample.landsat8_entry]
           [Sample.landsat8_available] "u@x.org"),
     MoreSample.after_request_30).
Proof. vm_compute. reflexivity. Qed.

Lemma confirmation_page_lists_the_scheduled_jobs_witness :
  exists latitude longitude lead js,
    read_form (Sample.env Sample.catalogue) Sample.request_30
      = Ok (latitude, longitude, lead, "u@x.org") /\
    job_set MoreSample.after_request_30 = job_set Sample.idle ++ js /\
    Forall2 (fun sn j =>
               strptime (snd sn) = Ok (fireAtUtc j) /\
               graceWindowSeconds j = 3600 /\ state j = Pending /\
               exists pass_time_str rise,
                 payload j = ("u@x.org", pass_message (fst sn) pass_time_str) /\
                 strptime pass_time_str = Ok rise /\
                 to_microseconds (fireAtUtc j)
                   = to_microseconds rise - lead * 60 * US_PER_SECOND)
            [Sample.landsat8_entry] js.
Proof.
  exact (confirmation_page_lists_the_scheduled_jobs _ _ _ _ _ _ _ _ sample_request_run).
Defined.

Lemma estimate_data_availability_range_witness :
  strptime "9999-12-31 17:59:59" = Ok (mk_datetime 9999 12 31 17 59 59 0 None) /\
  (exists available,
     estimate_data_availability "9999-12-31 17:59:59" = Ok (strftime available) /\
     1000 <= year available /\
     strptime (strftime available) = Ok available /\
     to_microseconds available
       = to_microseconds (mk_datetime 9999 12 31 17 59 59 0 None)
         + 6 * 3600 * US_PER_SECOND) /\
  strptime "9999-12-31 18:00:00" = Ok (mk_datetime 9999 12 31 18 0 0 0 None) /\
  estimate_data_availability "9999-12-31 18:00:00" = Raise OverflowError.
Proof.
  assert (P1 : strptime "9999-12-31 17:59:59" = Ok (mk_datetime 9999 12 31 17 59 59 0 None))
    by reflexivity.
  assert (P2 : strptime "9999-12-31 18:00:00" = Ok (mk_datetime 9999 12 31 18 0 0 0 None))
    by reflexivity.
  split; [exact P1|]. split.
  - apply (proj1 (estimate_data_availability_range _ _ P1)).
    + vm_compute. discriminate.
    + vm_compute. split; discriminate.
  - split; [exact P2|].
    apply (proj2 (estimate_data_availability_range _ _ P2)).
    vm_compute. intros [_ H]. now apply H.
Defined.

Lemma lead_beyond_the_calendar_raises_witness :
  Forall (dropped 1000000000000 Sample.noon) [("NOAA 19", "2024-06-01 14:00:00")] /\
  pass_filter "u@x.org" 1000000000000 Sample.noon
    ([("NOAA 19", "2024-06-01 14:00:00")]
       ++ ("LANDSAT 8", "2024-06-01 22:00:00") :: [("LANDSAT 9", "2024-06-01 12:10:00")])
    Sample.idle
  = (Raise OverflowError, Sample.idle).
Proof.
  assert (D : Forall (dropped 1000000000000 Sample.noon)
                     [("NOAA 19", "2024-06-01 14:00:00")]).
  { constructor; [left; reflexivity | constructor]. }
  split; [exact D|].
  apply (lead_beyond_the_calendar_raises "u@x.org" 1000000000000 Sample.noon
           _ _ "LANDSAT 8" "2024-06-01 22:00:00"
           (mk_datetime 2024 6 1 22 0 0 0 None) Sample.idle D).
  - reflexivity.
  - reflexivity.
  - vm_compute. intros [H _]. now apply H.
Defined.

Lemma sample_huge_request_run :
  home (Sample.env Sample.catalogue) MoreSample.huge_request Sample.idle
  = (Ok (error_html (StrOf OverflowError)), MoreSample.after_huge_request).
Proof. vm_compute. reflexivity. Qed.

Lemma only_overflow_after_the_form_is_read_witness :
  read_form (Sample.env Sample.catalogue) MoreSample.huge_request
    = Ok (34%float, (-118)%float, 1000000000000, "u@x.org") /\
  home (Sample.env Sample.catalogue) MoreSample.huge_request Sample.idle
    = (Ok (error_html (StrOf OverflowError)), MoreSample.after_huge_request) /\
  OverflowError = OverflowError.
Proof.
  assert (RF : read_form (Sample.env Sample.catalogue) MoreSample.huge_request
               = Ok (34%float, (-118)%float, 1000000000000, "u@x.org"))
    by reflexivity.
  split; [exact RF|]. split; [exact sample_huge_request_run|].
  exact (only_overflow_after_the_form_is_read
           (Sample.env Sample.catalogue) MoreSample.huge_request Sample.idle
           MoreSample.after_huge_request 34%float (-118)%float 1000000000000
           "u@x.org" OverflowError
           (sample_times_are_valid Sample.catalogue 34%float (-118)%float)
           eq_refl RF sample_huge_request_run).
Defined.

Lemma jobs_survive_a_later_exception_witness :
  home (Sample.env MoreSample.late_catalogue) MoreSample.late_request Sample.idle
  = (Ok (error_html (StrOf OverflowError)), MoreSample.late_after_first) /\
  exists js extra,
    job_set MoreSample.late_after_first = job_set Sample.idle ++ js ++ extra /\
    List.length js = List.length [("LANDSAT 9", "9999-12-31 20:00:00")] /\
    (List.length extra <= 1)%nat.
Proof.
  apply (jobs_survive_a_later_exception
           (Sample.env MoreSample.late_catalogue) MoreSample.late_request
           Sample.idle MoreSample.late_after_oracle MoreSample.late_after_first
           MoreSample.late_after_first
           34%float (-118)%float MoreSample.late_lead "u@x.org"
           [MoreSample.landsat9_pass] [] MoreSample.landsat8_pass
           [("LANDSAT 9", "9999-12-31 20:00:00")]
           [("LANDSAT 9", "2024-06-01 18:10:00")] OverflowError).
  - reflexivity.
  - reflexivity.
  - vm_compute. reflexivity.
  - vm_compute. reflexivity.
  - vm_compute. reflexivity.
Defined.

Lemma oracle_only_reads_the_clock_witness :
  exists k,
    set_ticks 4 Sample.idle = set_ticks (ticks Sample.idle + k)%nat Sample.idle /\
    (k <= List.length (Env.tle_file (Sample.env Sample.catalogue)))%nat /\
    k = List.length (Env.tle_file (Sample.env Sample.catalogue)).
Proof.
  apply (oracle_only_reads_the_clock (Sample.env Sample.catalogue)
           34%float (-118)%float Sample.idle (set_ticks 4 Sample.idle)
           (Ok Sample.passes)).
  vm_compute. reflexivity.
Defined.

(** The names the oracle returns are names of the catalogue. *)
Lemma oracle_names E latitude longitude evs p p' :
  get_next_pass_times E latitude longitude p = (Ok evs, p') ->
  Forall (fun ev => exists sat, In sat (Env.tle_file E) /\ fst ev = Env.name sat) evs.
Proof.
  intros G.
  destruct (get_next_pass_times_run _ _ _ _ _ _ G) as (k & _ & cs & F & ->).
  clear G. induction F as [|sat c sats cs Q F IH]; [constructor|].
  cbn [List.concat]. apply Forall_app. split.
  - destruct Q as (k' & t1 & _ & _ & [[_ ->] | (t & _ & ->)]); [constructor|].
    constructor; [|constructor]. exists sat. split; [now left | reflexivity].
  - eapply Forall_impl; [|exact IH]. cbv beta.
    intros ev (sat' & I & N). exists sat'. split; [now right | exact N].
Qed.

(** X14. When no name of the catalogue is of interest (in particular
    when the catalogue is empty), every POST whose form is read gets
    the "no passes" page whatever its lead time: the confirmation mail
    is sent, the clock is read, and nothing is scheduled or drawn. *)
Theorem no_satellite_of_interest_means_no_passes
    (E : Env.t) (req : request) (p : process)
    (latitude longitude : float) (lead : Z) (user_id : string) :
  (forall k, valid_datetime (Env.clock E k) /\ year (Env.clock E k) <= 9998) ->
  (forall sat, In sat (Env.tle_file E) -> interesting (Env.name sat) = false) ->
  method req = POST ->
  read_form E req = Ok (latitude, longitude, lead, user_id) ->
  home E req p =
  (Ok (error_html (Text no_passes_message)),
   set_ticks (ticks p + List.length (Env.tle_file E) + 1)%nat
     (set_outbox (outbox p ++ [confirmation_mail user_id]) p)).
Proof.
  intros C N Hm RF. rewrite (home_post E req p Hm), RF. cbv zeta.
  set (p1 := set_outbox (outbox p ++ [confirmation_mail user_id]) p).
  destruct (get_next_pass_times_total E latitude longitude C (Env.tle_file E) [] p1)
    as (evs & p2 & G).
  fold (get_next_pass_times E latitude longitude) in G. rewrite G.
  pose proof (oracle_names _ _ _ _ _ _ G) as Names.
  destruct (next_pass_loop_ticks E latitude longitude _ _ _ _ _ G)
    as (k & -> & _ & ->).
  assert (D : Forall (dropped lead (naive (Env.clock E
                (ticks (set_ticks (ticks p1 + List.length (Env.tle_file E)) p1))))) evs).
  { eapply Forall_impl; [|exact Names]. cbv beta.
    intros ev (sat & I & Eq). left. rewrite Eq. now apply N. }
  unfold pass_filter. rewrite (pass_loop_dropped _ _ _ _ _ _ D).
  f_equal. rewrite set_ticks_set_ticks. f_equal. cbn. lia.
Qed.

(** X15. What the confirmation page receives as [next_passes] is the
    list of scheduled notifications itself: the times it shows are the
    notification times, each the rise of an event the oracle returned
    for this request less the lead of the form, not the rises. *)
Theorem next_passes_are_notification_times
    (E : Env.t) (req : request) (p p' : process)
    (np sns das : list (string * string)) (user_id : string) :
  home E req p = (Ok (confirmation_html np sns das user_id), p') ->
  np = sns /\
  exists latitude longitude lead evs p2,
    read_form E req = Ok (latitude, longitude, lead, user_id) /\
    get_next_pass_times E latitude longitude
      (set_outbox (outbox p ++ [confirmation_mail user_id]) p) = (Ok evs, p2) /\
    Forall (fun entry => exists ev rise fire,
              In ev evs /\ fst entry = fst ev /\
              strptime (snd ev) = Ok rise /\
              strptime (snd entry) = Ok fire /\
              to_microseconds fire
                = to_microseconds rise - lead * 60 * US_PER_SECOND) np.
Proof.
  intros H.
  destruct (home_confirmation_inv _ _ _ _ _ _ _ _ H)
    as (lat & lon & lead & evs & p2 & p4 & RF & G & PF & -> & _).
  split; [reflexivity|]. exists lat, lon, lead, evs, p2.
  split; [exact RF|]. split; [exact G|].
  filter_inversion PF as js F.
  exact (filtered_fire_time _ _ _ _ _ _ _ F).
Qed.

(** X16. The reference time of a request is the reading of the clock
    taken after the oracle has gone through the catalogue (one reading
    per entry): on the confirmation page every notification, and every
    job added, is for a time strictly after that reading. *)
Theorem home_schedules_after_its_reference_reading
    (E : Env.t) (req : request) (p p' : process)
    (np sns das : list (string * string)) (user_id : string) :
  (forall k, valid_datetime (Env.clock E k)) ->
  home E req p = (Ok (confirmation_html np sns das user_id), p') ->
  let now := naive (Env.clock E (ticks p + List.length (Env.tle_file E))) in
  ticks p' = (ticks p + List.length (Env.tle_file E) + 1)%nat /\
  Forall (fun sn => exists fire,
            strptime (snd sn) = Ok fire /\
            to_microseconds now < to_microseconds fire) sns /\
  exists js,
    job_set p' = job_set p ++ js /\
    Forall (fun j => to_microseconds now < to_microseconds (fireAtUtc j)) js.
Proof.
  intros V H now.
  destruct (home_confirmation_inv _ _ _ _ _ _ _ _ H)
    as (lat & lon & lead & evs & p2 & p4 & RF & G & PF & _ & ->).
  destruct (next_pass_loop_ticks E lat lon _ _ _ _ _ G) as (k & -> & _ & ->).
  cbn [ticks set_ticks set_outbox] in PF.
  filter_inversion PF as js F.
  assert (Vnow : valid_datetime now) by apply V.
  destruct (filtered_fire_after_now _ _ _ _ _ _ _ Vnow F) as [F1 F2].
  split; [cbn; lia|]. split.
  - eapply Forall_impl; [|exact F1]. cbv beta.
    intros sn (fire & P & _ & L). exists fire. auto.
  - exists js. split; [reflexivity|].
    eapply Forall_impl; [|exact F2]. cbv beta. intros j [_ L]. exact L.
Qed.

Lemma no_satellite_of_interest_means_no_passes_witness :
  home (Sample.env MoreSample.other_catalogue) MoreSample.huge_request Sample.idle
  = (Ok (error_html (Text no_passes_message)),
     set_ticks (ticks Sample.idle + List.length MoreSample.other_catalogue + 1)%nat
       (set_outbox (outbox Sample.idle ++ [confirmation_mail "u@x.org"]) Sample.idle)).
Proof.
  apply (no_satellite_of_interest_means_no_passes
           (Sample.env MoreSample.other_catalogue) MoreSample.huge_request
           Sample.idle 34%float (-118)%float 1000000000000 "u@x.org").
  - exact (sample_clock_is_valid MoreSample.other_catalogue).
  - intros sat [<- | [<- | []]]; reflexivity.
  - reflexivity.
  - reflexivity.
Defined.

Lemma next_passes_are_notification_times_witness :
  [Sample.landsat8_entry] = [Sample.landsat8_entry] /\
  exists latitude longitude lead evs p2,
    read_form (Sample.env Sample.catalogue) Sample.request_30
      = Ok (latitude, longitude, lead, "u@x.org") /\
    get_next_pass_times (Sample.env Sample.catalogue) latitude longitude
      (set_outbox (outbox Sample.idle ++ [confirmation_mail "u@x.org"]) Sample.idle)
      = (Ok evs, p2) /\
    Forall (fun entry => exists ev rise fire,
              In ev evs /\ fst entry = fst ev /\
              strptime (snd ev) = Ok rise /\
              strptime (snd entry) = Ok fire /\
              to_microseconds fire
                = to_microseconds rise - lead * 60 * US_PER_SECOND)
           [Sample.landsat8_entry].
Proof.
  exact (next_passes_are_notification_times _ _ _ _ _ _ _ _ sample_request_run).
Defined.

Lemma home_schedules_after_its_reference_reading_witness :
  ticks MoreSample.after_request_30
    = (ticks Sample.idle + List.length Sample.catalogue + 1)%nat /\
  Forall (fun sn => exists fire,
            strptime (snd sn) = Ok fire /\
            to_microseconds Sample.noon < to_microseconds fire)
         [Sample.landsat8_entry].
Proof.
  destruct (home_schedules_after_its_reference_reading
              (Sample.env Sample.catalogue) Sample.request_30 Sample.idle
              MoreSample.after_request_30 _ _ _ _
              (fun k => proj1 (sample_clock_is_valid Sample.catalogue k))
              sample_request_run) as (T & F & _).
  split; [exact T | exact F].
Defined.
